(** * webAPI: the fetch adapter and the retrying service layer

    A shallow embedding of [ApiService.js], [HttpClient.js] and of the second,
    leaner [HttpClient] class of the repository (the one with [_buildUrl] and
    [_fetch]), followed by the properties of the retry orchestration, of the
    status-to-message table and of the transport glue.

    JavaScript promises are modelled by their settlement: an awaited call
    either resolves with a value or rejects with a thrown value.  Effects
    (invoking the request thunk, waiting on [setTimeout], calling [fetch])
    are threaded explicitly through a world. *)

From Stdlib Require Import ZArith String Ascii List Lia Bool.
From Equations Require Import Equations.
From stdpp Require Import base option strings gmap.
Import ListNotations.

Local Open Scope string_scope.
Local Open Scope Z_scope.

(* ===================================================================== *)
(** ** JavaScript values                                                  *)
(* ===================================================================== *)

Module Js.

(** The values a decoded body can be.  Numbers are the integers (every
    number the sources look at is a status code or a JSON integer); an
    object is the list of its own properties, the first binding of a key
    being the property. *)
#[warnings="-register-all"]
Inductive JsVal : Type :=
| JUndefined
| JNull
| JBool (b : bool)
| JNum (n : Z)
| JStr (s : string)
| JArr (items : list JsVal)
| JObj (props : list (string * JsVal)).

(** The values that are not objects. *)
Inductive Primitive : Type :=
| PUndefined
| PNull
| PBool (b : bool)
| PNum (n : Z)
| PStr (s : string).

(** Values that can be thrown or that reject a promise in these sources. *)
Inductive Thrown : Type :=
| Failure (status : Z) (statusText url : string)
    (* the plain object [{ status, statusText, url }] *)
| Error (message : string)
    (* [new Error(message)], and the runtime's TypeError / SyntaxError *)
| HttpError (message : string) (status : Z) (data : JsVal)
    (* an Error with [.status] and [.data] attached *)
| HttpErrorFrom (source : JsVal) (status : Z) (data : JsVal)
    (* the same, made by [new Error(source)] from a [source] that is not a
       string: its message is the platform's [String(source)] *)
| Enhanced (message : string) (originalError : Thrown)
    (* an Error with [.originalError] attached *)
| Raw (v : Primitive).
    (* a value that is not an object, thrown as it is: [throw undefined],
       [Promise.reject()], [throw 'oops'] *)

(** How a promise (or a call that may throw) settles. *)
Inductive Settled (A : Type) : Type :=
| Resolved (a : A)
| Rejected (e : Thrown).
Arguments Resolved {A} a.
Arguments Rejected {A} e.

(** How a call made inside a [try] block completes: it returns a value,
    [p] being how that value settles once awaited (a plain value resolves
    to itself, a promise resolves or rejects), or it throws. *)
Inductive Completion : Type :=
| Returns (p : Settled JsVal)
| Throws (e : Thrown).

(** A call that makes no promise: it returns its value or throws. *)
Definition sync (r : Settled JsVal) : Completion :=
  match r with
  | Resolved v => Returns (Resolved v)
  | Rejected e => Throws e
  end.

(** ToBoolean. *)
Definition truthy (v : JsVal) : bool :=
  match v with
  | JUndefined | JNull => false
  | JBool b => b
  | JNum n => negb (n =? 0)
  | JStr s => negb (String.eqb s "")
  | JArr _ | JObj _ => true
  end.

Fixpoint assoc (k : string) (props : list (string * JsVal)) : option JsVal :=
  match props with
  | [] => None
  | (k', v) :: rest => if String.eqb k k' then Some v else assoc k rest
  end.

(** [v.k] for the property names the sources read ([response], [body],
    [items], [item], [message], [a]): none of them is inherited from a
    prototype, so a primitive or an array answers [undefined]; reading a
    property of [null] or [undefined] throws a TypeError. *)
Definition get (v : JsVal) (k : string) : Settled JsVal :=
  match v with
  | JUndefined => Rejected (Error ("Cannot read properties of undefined (reading '" ++ k ++ "')"))
  | JNull => Rejected (Error ("Cannot read properties of null (reading '" ++ k ++ "')"))
  | JObj props => Resolved (match assoc k props with Some x => x | None => JUndefined end)
  | _ => Resolved JUndefined
  end.

(** [v?.k]: short-circuits to [undefined] on [null] and [undefined]. *)
Definition get_opt (v : JsVal) (k : string) : JsVal :=
  match v with
  | JObj props => match assoc k props with Some x => x | None => JUndefined end
  | _ => JUndefined
  end.

Fixpoint join (sep : string) (parts : list string) : string :=
  match parts with
  | [] => ""
  | [p] => p
  | p :: rest => p ++ sep ++ join sep rest
  end.

(** [err.status], when the thrown value has one. *)
Definition err_status (e : Thrown) : option Z :=
  match e with
  | Failure s _ _ => Some s
  | HttpError _ s _ => Some s
  | HttpErrorFrom _ s _ => Some s
  | Error _ | Enhanced _ _ | Raw _ => None
  end.

(** The thrown value is [undefined] or [null]. *)
Definition nullish (e : Thrown) : bool :=
  match e with
  | Raw PUndefined | Raw PNull => true
  | _ => false
  end.

(** Evaluating [err.status]: reading a property of [undefined] or [null]
    throws a TypeError. *)
Definition read_status (e : Thrown) : Settled (option Z) :=
  match e with
  | Raw PUndefined =>
      Rejected (Error "Cannot read properties of undefined (reading 'status')")
  | Raw PNull =>
      Rejected (Error "Cannot read properties of null (reading 'status')")
  | _ => Resolved (err_status e)
  end.

Definition err_statusText (e : Thrown) : option string :=
  match e with
  | Failure _ t _ => Some t
  | _ => None
  end.

Definition err_url (e : Thrown) : option string :=
  match e with
  | Failure _ _ u => Some u
  | _ => None
  end.

End Js.
Import Js.

(* ===================================================================== *)
(** ** The fetch interface both adapters sit on                           *)
(* ===================================================================== *)

Module Fetch.

(** An options object ([defaultOptions], the per-call [options], what is
    handed to [fetch]).  [None] is a property the object does not have.
    Header objects are maps from header name to value; [params] keeps the
    enumeration order of the object it stands for. *)
Record Options : Type := mkOptions {
  method : option string;
  headers : option (gmap string string);
  body : option string;
  params : option (list (string * string))
}.

(** [{}]. *)
Definition empty : Options := mkOptions None None None None.

Definition over {A} (a b : option A) : option A :=
  match b with Some _ => b | None => a end.

(** [{ ...a, ...b }]: property by property, [b] wins where it has one. *)
Definition spread (a b : Options) : Options :=
  mkOptions (over (method a) (method b))
            (over (headers a) (headers b))
            (over (body a) (body b))
            (over (params a) (params b)).

(** [{ ...h }] of a headers property that may be missing. *)
Definition spread_headers (h : option (gmap string string)) : gmap string string :=
  match h with Some m => m | None => ∅ end.

(** What the sources read of a [Response]: [json] and [text] are how
    [response.json()] and [response.text()] settle, [content_type] is
    [response.headers.get('content-type')]. *)
Record Response : Type := mkResponse {
  status : Z;
  statusText : string;
  url : string;
  content_type : option string;
  json : Settled JsVal;
  text : string
}.

(** [response.ok]: the status is in the range 200-299. *)
Definition ok (r : Response) : bool :=
  (200 <=? status r) && (status r <=? 299).

(** [s.includes(sub)]. *)
Fixpoint includes (s sub : string) : bool :=
  String.prefix sub s ||
  match s with
  | EmptyString => false
  | String _ s' => includes s' sub
  end.

(** *** [new URLSearchParams(params).toString()]

    The application/x-www-form-urlencoded serializer of the platform, on
    the bytes of the (UTF-8) strings. *)
Definition hex_digit (n : N) : ascii :=
  match n with
  | 0%N => "0" | 1%N => "1" | 2%N => "2" | 3%N => "3" | 4%N => "4"
  | 5%N => "5" | 6%N => "6" | 7%N => "7" | 8%N => "8" | 9%N => "9"
  | 10%N => "A" | 11%N => "B" | 12%N => "C" | 13%N => "D" | 14%N => "E"
  | _ => "F"
  end%char.

Definition unreserved (c : ascii) : bool :=
  let n := N_of_ascii c in
  ((48 <=? n) && (n <=? 57) || (65 <=? n) && (n <=? 90) ||
   (97 <=? n) && (n <=? 122) ||
   (n =? 42) || (n =? 45) || (n =? 46) || (n =? 95))%N.

Fixpoint form_encode (s : string) : string :=
  match s with
  | EmptyString => EmptyString
  | String c rest =>
      if unreserved c then String c (form_encode rest)
      else if Ascii.eqb c " " then String "+" (form_encode rest)
      else let n := N_of_ascii c in
           String "%" (String (hex_digit (n / 16)) (String (hex_digit (n mod 16))
             (form_encode rest)))
  end.

Definition URLSearchParams_toString (params : list (string * string)) : string :=
  join "&" (map (fun '(k, v) => form_encode k ++ "=" ++ form_encode v) params).

(** The characters a serialized query is made of: the unreserved ones,
    the escapes and the separators. *)
Definition form_safe (c : ascii) : bool :=
  unreserved c || Ascii.eqb c "+" || Ascii.eqb c "%".

Definition query_safe (c : ascii) : bool :=
  form_safe c || Ascii.eqb c "=" || Ascii.eqb c "&" || Ascii.eqb c "?".

(** An instance of either [HttpClient] class: what its constructor
    stores. *)
Record Client : Type := mkClient {
  baseUrl : string;
  defaultOptions : Options
}.

End Fetch.

(* ===================================================================== *)
(** ** HttpClient.js                                                      *)
(* ===================================================================== *)

Module HttpClient.
Import Fetch.

Definition buildUrl (this : Client) (endpoint : string) : string :=
  if String.prefix "http" endpoint then endpoint
  else baseUrl this ++ endpoint.

Section Methods.
(** The state of whatever answers the calls, and [fetch] itself. *)
Context {St : Type}.
Variable fetch : string -> Options -> St -> Settled Response * St.

Definition request (this : Client) (endpoint : string) (options : Options)
    : St -> Settled JsVal * St :=
  fun s =>
    let url := buildUrl this endpoint in
    let requestOptions := spread (defaultOptions this) options in
    match fetch url requestOptions s with
    | (Rejected error, s') => (Rejected error, s')
    | (Resolved response, s') =>
        if negb (ok response)
        then (Rejected (Failure (status response) (statusText response)
                                (Fetch.url response)), s')
        else
          match content_type response with
          | Some contentType =>
              if negb (String.eqb contentType "") &&
                 includes contentType "application/json"
              then (json response, s')
              else (Resolved (JStr (text response)), s')
          | None => (Resolved (JStr (text response)), s')
          end
    end.

(** [get] and [delete]: [{ ...options, method }]. *)
Definition get (this : Client) (endpoint : string) (options : Options) :=
  request this endpoint (spread options (mkOptions (Some "GET") None None None)).


(** [JSON.stringify] of the platform; [None] is [undefined], its answer for
    [undefined] itself. *)
Variable JSON_stringify : JsVal -> option string.

(** [post] and [put]:
    [{ ...options, method, body: JSON.stringify(data),
       headers: { 'Content-Type': 'application/json', ...options.headers } }].
    When [JSON.stringify] answers [undefined] the literal still has a [body]
    property, holding [undefined]; the record has none then, which differs
    from the source only for a client whose default options carry a body. *)
Definition json_headers (options : Options) : gmap string string :=
  spread_headers (headers options) ∪ {[ "Content-Type" := "application/json" ]}.

Definition post (this : Client) (endpoint : string) (data : JsVal) (options : Options) :=
  request this endpoint
    (mkOptions (Some "POST") (Some (json_headers options)) (JSON_stringify data)
               (params options)).

Definition put (this : Client) (endpoint : string) (data : JsVal) (options : Options) :=
  request this endpoint
    (mkOptions (Some "PUT") (Some (json_headers options)) (JSON_stringify data)
               (params options)).

End Methods.

End HttpClient.

(* ===================================================================== *)
(** ** The second [HttpClient] class ([_buildUrl], [_fetch])              *)
(* ===================================================================== *)

Module HttpClient2.
Import Fetch.

Definition _buildUrl (this : Client) (endpoint : string)
    (params : option (list (string * string))) : string :=
  let queryString :=
    URLSearchParams_toString (match params with Some p => p | None => [] end) in
  baseUrl this ++ endpoint ++
  (if negb (String.eqb queryString "") then "?" ++ queryString else "").

(** What [_buildUrl] puts after the endpoint. *)
Definition query_suffix (params : option (list (string * string))) : string :=
  let queryString :=
    URLSearchParams_toString (match params with Some p => p | None => [] end) in
  if negb (String.eqb queryString "") then "?" ++ queryString else "".

(** The object literal that [_fetch] hands to [fetch]: the merged
    [headers] property first, then [...options]. *)
Definition finalOptions (this : Client) (options : Options) : Options :=
  spread
    (mkOptions None
       (Some (spread_headers (headers options) ∪
              (spread_headers (headers (defaultOptions this)) ∪
               {[ "Accept" := "application/json" ]})))
       None None)
    options.

(** [{ message: 'Invalid JSON response.' }]. *)
Definition invalid_json : JsVal :=
  JObj [("message", JStr "Invalid JSON response.")].

(** [try { data = await response.json(); } catch (_) { data = ...; }]. *)
Definition read_json (response : Response) : JsVal :=
  match json response with
  | Resolved d => d
  | Rejected _ => invalid_json
  end.

(** [new Error(data.message || 'HTTP error')] with [status] and [data]
    attached, [m] being [data.message]. *)
Definition http_error (m : JsVal) (status : Z) (data : JsVal) : Thrown :=
  if truthy m then
    match m with
    | JStr text => HttpError text status data
    | _ => HttpErrorFrom m status data
    end
  else HttpError "HTTP error" status data.

Section Methods.
Context {St : Type}.
Variable fetch : string -> Options -> St -> Settled Response * St.

Definition _fetch (this : Client) (url : string) (options : Options)
    : St -> Settled JsVal * St :=
  fun s =>
    match fetch url (finalOptions this options) s with
    | (Rejected e, s') => (Rejected e, s')
    | (Resolved response, s') =>
        let data := read_json response in
        if negb (ok response) then
          match Js.get data "message" with
          | Rejected e => (Rejected e, s')
          | Resolved m => (Rejected (http_error m (status response) data), s')
          end
        else (Resolved data, s')
    end.

(** [get]: [{ method: 'GET', ...options }]. *)
Definition get (this : Client) (endpoint : string) (options : Options) :=
  let url := _buildUrl this endpoint (params options) in
  _fetch this url (spread (mkOptions (Some "GET") None None None) options).

End Methods.

End HttpClient2.

(* ===================================================================== *)
(** ** ApiService.js                                                      *)
(* ===================================================================== *)

Module ApiService.

(** What [request] does to the outside, in order. *)
Inductive Event : Type :=
| Invoke              (* one call of [requestFn] *)
| Sleep (ms : Z).     (* one [setTimeout(res, ms)] awaited *)

(** The world a call runs in: the state the thunk acts on (the server, a
    counter of a test double, ...) and the events so far. *)
Record World (St : Type) : Type := mkWorld { w_state : St; w_trace : list Event }.
Arguments mkWorld {St} _ _.
Arguments w_state {St} _.
Arguments w_trace {St} _.

(** An asynchronous computation. *)
Definition M (St A : Type) : Type := World St -> Settled A * World St.

Definition ret {St A} (a : A) : M St A := fun w => (Resolved a, w).
Definition throw {St A} (e : Thrown) : M St A := fun w => (Rejected e, w).
Definition bind {St A B} (m : M St A) (k : A -> M St B) : M St B :=
  fun w => match m w with
           | (Resolved a, w') => k a w'
           | (Rejected e, w') => (Rejected e, w')
           end.

(** A call inside the computation: its value goes on, its throw is
    thrown. *)
Definition call {St} (c : Completion) : M St (Settled JsVal) :=
  match c with
  | Returns p => ret p
  | Throws e => throw e
  end.

Declare Scope js_scope.
Delimit Scope js_scope with js.
Notation "x <- m ;; k" := (bind m (fun x => k))
  (at level 100, m at next level, right associativity) : js_scope.
Notation "m ;; k" := (bind m (fun _ => k))
  (at level 100, right associativity) : js_scope.

(** [await requestFn()]. *)
Definition await_call {St} (requestFn : St -> Settled JsVal * St) : M St JsVal :=
  fun w => let '(r, s') := requestFn (w_state w) in
           (r, mkWorld s' (w_trace w ++ [Invoke])).

(** [await new Promise(res => setTimeout(res, ms))]. *)
Definition sleep {St} (ms : Z) : M St unit :=
  fun w => (Resolved tt, mkWorld (w_state w) (w_trace w ++ [Sleep ms])).

(** The table of [getErrorMessageByStatus]; the keys of the object literal
    are the decimal spellings of these numbers, and [messages[status]]
    with a numeric [status] looks its decimal spelling up. *)
Definition messages : list (Z * string) :=
  [ (400, "잘못된 요청입니다.");
    (401, "인증이 필요합니다.");
    (403, "접근이 거부되었습니다.");
    (404, "데이터를 찾을 수 없습니다.");
    (429, "요청이 너무 많습니다. 나중에 다시 시도하세요.");
    (500, "서버 오류가 발생했습니다.") ].

Fixpoint entry (status : Z) (table : list (Z * string)) : option string :=
  match table with
  | [] => None
  | (k, m) :: rest => if status =? k then Some m else entry status rest
  end.

(** [messages[status] || fallback]. *)
Definition getErrorMessageByStatus (status : Z) (fallback : string) : string :=
  match entry status messages with
  | Some m => if String.eqb m "" then fallback else m
  | None => fallback
  end.

Section Request.
Context {St : Type}.
Variable requestFn : St -> Settled JsVal * St.
Variables retries retryDelay : Z.
Variable errorMessage : string.
Variable transformResponse : JsVal -> Completion.
Variable validateStatus : option (JsVal -> bool).

(** [validateStatus && !validateStatus(res)]. *)
Definition validation_fails (res : JsVal) : bool :=
  match validateStatus with
  | Some accepts => negb (accepts res)
  | None => false
  end.

(** The [try] block of [tryRequest].  [Rejected err] is a throw, which
    the [catch] receives: a failure of the awaited [requestFn()], the
    validation error, a throw of [transformResponse].  [Resolved p] is the
    block returning [transformResponse(res)], [p] being how that value
    settles: it is returned without [await], so a promise that rejects
    does not reach the [catch]. *)
Definition try_block : M St (Settled JsVal) :=
  (res <- await_call requestFn ;;
   (if validation_fails res
    then throw (Error "Custom validation failed.")
    else ret tt) ;;
   call (transformResponse res))%js.

(** The message of the enhanced error, from [err.status]. *)
Definition final_message (err : Thrown) : string :=
  match err_status err with
  | Some status =>
      if truthy (JNum status)
      then getErrorMessageByStatus status errorMessage
      else errorMessage
  | None => errorMessage
  end.

(** The end of the [catch] block, once the budget is spent: the message
    is chosen from [err.status], which throws when [err] is [undefined] or
    [null]; otherwise the enhanced error is thrown. *)
Definition final_failure (err : Thrown) : Settled JsVal :=
  match read_status err with
  | Rejected type_error => Rejected type_error
  | Resolved _ => Rejected (Enhanced (final_message err) err)
  end.

(** [tryRequest], with the captured counter [attempts] as an argument. *)
Equations? tryRequest (attempts : Z) (w : World St) : Settled JsVal * World St
  by wf (Z.to_nat (retries - attempts)) lt :=
  tryRequest attempts w with try_block w := {
    | (Resolved p, w1) := (p, w1);
    | (Rejected err, w1) with Z_lt_dec attempts retries := {
        | left _ := tryRequest (attempts + 1) (snd (sleep retryDelay w1));
        | right _ := (final_failure err, w1) } }.
Proof. lia. Qed.

End Request.

(** The options object of [request]; [None] is a property left out (or
    [undefined]), which the destructuring replaces by its default. *)
Record RequestOptions : Type := mkOptions {
  retries : option Z;
  retryDelay : option Z;
  errorMessage : option string;
  transformResponse : option (JsVal -> Completion);
  validateStatus : option (JsVal -> bool)
}.

Definition no_options : RequestOptions := mkOptions None None None None None.

Definition or_default {A} (o : option A) (d : A) : A :=
  match o with Some a => a | None => d end.

Definition request {St} (requestFn : St -> Settled JsVal * St)
    (options : RequestOptions) : M St JsVal :=
  tryRequest requestFn
    (or_default (retries options) 1)
    (or_default (retryDelay options) 1000)
    (or_default (errorMessage options) "API request failed.")
    (or_default (transformResponse options) (fun d => Returns (Resolved d)))
    (validateStatus options)
    0.

(** A property of an options object that is spread into a literal: the
    object does not have it, or it has it, [Own None] being a property
    that is there and holds [undefined]. *)
Inductive Property (A : Type) : Type :=
| Absent
| Own (value : option A).
Arguments Absent {A}.
Arguments Own {A} value.

(** The [options] of [getWeatherData]. *)
Record CallOptions : Type := mkCall {
  own_retries : Property Z;
  own_retryDelay : Property Z;
  own_errorMessage : Property string;
  own_transformResponse : Property (JsVal -> Completion);
  own_validateStatus : Property (JsVal -> bool)
}.

(** [{}]. *)
Definition no_call_options : CallOptions :=
  mkCall Absent Absent Absent Absent Absent.

(** One property of [{ ...literal, ...options }]: a property that
    [options] has replaces the literal's, also when it holds
    [undefined]. *)
Definition over {A} (literal : option A) (own : Property A) : option A :=
  match own with
  | Absent => literal
  | Own value => value
  end.

Definition spread (literal : RequestOptions) (options : CallOptions) : RequestOptions :=
  mkOptions (over (retries literal) (own_retries options))
            (over (retryDelay literal) (own_retryDelay options))
            (over (errorMessage literal) (own_errorMessage options))
            (over (transformResponse literal) (own_transformResponse options))
            (over (validateStatus literal) (own_validateStatus options)).

(** [res => res.response?.body?.items?.item || []]. *)
Definition weather_items (res : JsVal) : Completion :=
  match get res "response" with
  | Rejected e => Throws e
  | Resolved response =>
      let item := get_opt (get_opt (get_opt response "body") "items") "item" in
      Returns (Resolved (if truthy item then item else JArr []))
  end.

Section Service.
(** The [get] method of the client class the service is loaded with. *)
Context {St : Type}.
Variable HttpClient_get :
  Fetch.Client -> string -> Fetch.Options -> St -> Settled JsVal * St.

(** [new ApiService(baseUrl, defaultOptions)]. *)
Record Service : Type := mkService { client : Fetch.Client }.

Definition new (baseUrl : string) (defaultOptions : Fetch.Options) : Service :=
  mkService (Fetch.mkClient baseUrl defaultOptions).

Definition getWeatherData (this : Service) (params : list (string * string))
    (options : CallOptions) : M St JsVal :=
  request
    (HttpClient_get (client this) "getWthrDataList"
       (Fetch.mkOptions None None None (Some params)))
    (spread
       (mkOptions None None (Some "기상 데이터 조회에 실패했습니다.")
                  (Some weather_items) None)
       options).

End Service.

(** *** Observing a run *)

(** How many times the thunk was invoked, and the delays waited. *)
Fixpoint invocations (tr : list Event) : nat :=
  match tr with
  | [] => 0
  | Invoke :: rest => S (invocations rest)
  | Sleep _ :: rest => invocations rest
  end.

Fixpoint waits (tr : list Event) : list Z :=
  match tr with
  | [] => []
  | Invoke :: rest => waits rest
  | Sleep ms :: rest => ms :: waits rest
  end.

(** The events of [k] retries: an invocation, then [k] times a wait and an
    invocation. *)
Fixpoint retry_trace (k : nat) (ms : Z) : list Event :=
  match k with
  | O => [Invoke]
  | S k' => Invoke :: Sleep ms :: retry_trace k' ms
  end.

Section Attempts.
Context {St : Type}.
Variable requestFn : St -> Settled JsVal * St.
Variable transformResponse : JsVal -> Completion.
Variable validateStatus : option (JsVal -> bool).

(** One pass through the [try] block, on the state of the thunk alone:
    what the block returns, or the throw the [catch] receives. *)
Definition attempt (s : St) : Completion * St :=
  match requestFn s with
  | (Resolved res, s') =>
      if validation_fails validateStatus res
      then (Throws (Error "Custom validation failed."), s')
      else (transformResponse res, s')
  | (Rejected e, s') => (Throws e, s')
  end.

(** The state before attempt number [k] (from 0), and how that attempt
    ends. *)
Fixpoint state_before (k : nat) (s : St) : St :=
  match k with
  | O => s
  | S k' => state_before k' (snd (attempt s))
  end.

Definition outcome (k : nat) (s : St) : Completion :=
  fst (attempt (state_before k s)).

End Attempts.

(** The state of the thunk after [n] invocations. *)
Fixpoint thunk_state {St} (requestFn : St -> Settled JsVal * St) (n : nat) (s : St) : St :=
  match n with
  | O => s
  | S n' => thunk_state requestFn n' (snd (requestFn s))
  end.

(** The number of attempts of a finished run. *)
Definition attempts_made {St} (run : Settled JsVal * World St) : nat :=
  invocations (w_trace (snd run)).

(** The statuses the table has an entry for. *)
Definition mapped_statuses : list Z := [400; 401; 403; 404; 429; 500].

(** A thunk that rejects whenever it is invoked. *)
Definition always_fails {St} (requestFn : St -> Settled JsVal * St) : Prop :=
  forall s, exists e, fst (requestFn s) = Rejected e.

(** [{ ...options, validateStatus }]. *)
Definition with_validateStatus (options : RequestOptions)
    (validateStatus : option (JsVal -> bool)) : RequestOptions :=
  mkOptions (retries options) (retryDelay options) (errorMessage options)
            (transformResponse options) validateStatus.

(** A thunk that resolves whenever it is invoked. *)
Definition always_resolves {St} (requestFn : St -> Settled JsVal * St) : Prop :=
  forall s, exists res, fst (requestFn s) = Resolved res.

(** A [validateStatus] that is set and rejects every response. *)
Definition rejects_all (validateStatus : option (JsVal -> bool)) : Prop :=
  exists reject, validateStatus = Some reject /\ forall res, reject res = false.

(** A [validateStatus] that is not set, or lets [res] through. *)
Definition lets_through (validateStatus : option (JsVal -> bool)) (res : JsVal) : Prop :=
  validation_fails validateStatus res = false.

(** How the attempt a run stops at settles the call: as the value the
    [try] block returned, or as the [catch] block gives up. *)
Definition settle (errorMessage : string) (c : Completion) : Settled JsVal :=
  match c with
  | Returns p => p
  | Throws e => final_failure errorMessage e
  end.

(** The final failure has the shape of an enhanced failure: an Error with
    a message and the cause attached. *)
Definition enhanced_failure (r : Settled JsVal) : bool :=
  match r with
  | Rejected (Enhanced _ _) => true
  | _ => false
  end.

(** The configuration [getWeatherData] runs [request] with when the call
    gives no options. *)
Definition weather_defaults : RequestOptions :=
  spread (mkOptions None None (Some "기상 데이터 조회에 실패했습니다.")
                    (Some weather_items) None) no_call_options.

End ApiService.

(* ===================================================================== *)
(** ** Statements of the specification that the code is compared with     *)
(* ===================================================================== *)

Module Stated.
Import ApiService.

(** "If responseValidator rejects every response, behavior is identical
    (same retry count, same final failure shape) to the underlying thunk
    always failing outright": the same number of attempts, and a final
    failure of the same shape, that of the Enhanced Failure (a message and
    the cause). *)
Definition validator_rejection_is_thunk_failure : Prop :=
  forall (St : Type) (requestFn failing : St -> Settled JsVal * St)
         (options : RequestOptions) (s0 : St),
    always_resolves requestFn ->
    always_fails failing ->
    let validated :=
      request requestFn (with_validateStatus options (Some (fun _ => false)))
              (mkWorld s0 []) in
    let failed := request failing options (mkWorld s0 []) in
    attempts_made validated = attempts_made failed /\
    enhanced_failure (fst validated) = true /\
    enhanced_failure (fst failed) = true.

(** "execute(thunk, {retries: 0}) where thunk fails once: exactly 1
    attempt, immediate Enhanced Failure, no wait performed", the Enhanced
    Failure carrying the raw failure as its cause. *)
Definition single_failure_is_enhanced : Prop :=
  forall (St : Type) (requestFn : St -> Settled JsVal * St)
         (options : RequestOptions) (s0 s1 : St) (e : Thrown),
    retries options = Some 0 ->
    requestFn s0 = (Rejected e, s1) ->
    let run := request requestFn options (mkWorld s0 []) in
    attempts_made run = 1%nat /\
    waits (w_trace (snd run)) = [] /\
    exists message, fst run = Rejected (Enhanced message e).

(** "If the given endpoint already looks like an absolute URL
    (recognizable scheme prefix), use it verbatim; otherwise concatenate the
    configured base URL with the endpoint.  Query parameters, if provided,
    are URL-encoded and appended." *)
Definition resolved_url (baseUrl endpoint : string)
    (params : option (list (string * string))) : string :=
  (if String.prefix "http" endpoint then endpoint else baseUrl ++ endpoint) ++
  match params with
  | Some p => "?" ++ Fetch.URLSearchParams_toString p
  | None => ""
  end.

Definition url_resolution
    (url_used : Fetch.Client -> string -> option (list (string * string)) -> string)
    : Prop :=
  forall this endpoint params,
    url_used this endpoint params = resolved_url (Fetch.baseUrl this) endpoint params.

(** The [get] method of a client class. *)
Definition Get : Type :=
  forall St : Type,
    (string -> Fetch.Options -> St -> Settled Fetch.Response * St) ->
    Fetch.Client -> string -> Fetch.Options -> St -> Settled JsVal * St.

(** "Fails with TransportFailure{statusCode, statusText, url} when the HTTP
    layer returns a non-2xx status." *)
Definition carries (e : Thrown) (r : Fetch.Response) : Prop :=
  err_status e = Some (Fetch.status r) /\
  err_statusText e = Some (Fetch.statusText r) /\
  err_url e = Some (Fetch.url r).

Definition transport_failure (get : Get) : Prop :=
  forall St fetch this endpoint options (s s' : St) (r : Fetch.Response),
    (forall u o, fetch u o s = (Resolved r, s')) ->
    Fetch.ok r = false ->
    exists e, get St fetch this endpoint options s = (Rejected e, s') /\ carries e r.

(** "Inspect the response's declared content type; if it indicates JSON,
    decode as JSON (on decode failure, substitute a sentinel body rather
    than failing the call); otherwise decode as plain text." *)
Definition indicates_json (r : Fetch.Response) : bool :=
  match Fetch.content_type r with
  | Some ct => Fetch.includes ct "application/json"
  | None => false
  end.

Definition decoded_by_content_type (r : Fetch.Response) : JsVal :=
  if indicates_json r then
    match Fetch.json r with
    | Resolved d => d
    | Rejected _ => JObj [("message", JStr "Invalid JSON response.")]
    end
  else JStr (Fetch.text r).

Definition body_decoding (get : Get) : Prop :=
  forall St fetch this endpoint options (s s' : St) (r : Fetch.Response),
    (forall u o, fetch u o s = (Resolved r, s')) ->
    Fetch.ok r = true ->
    get St fetch this endpoint options s = (Resolved (decoded_by_content_type r), s').

(** The nested path [res.response.body.items.item], [undefined] when it is
    missing at some level. *)
Definition item_path (res : JsVal) : JsVal :=
  get_opt (get_opt (get_opt (get_opt res "response") "body") "items") "item".

(** "If the nested path is absent or undefined at any level,
    getWeatherData resolves to the empty list rather than failing;
    otherwise it resolves to that item list." *)
Definition items_or_empty : Prop :=
  forall St (get : Fetch.Client -> string -> Fetch.Options -> St -> Settled JsVal * St)
         (this : Service) (params : list (string * string)) (s0 s1 : St) (res : JsVal),
    get (client this) "getWthrDataList"
        (Fetch.mkOptions None None None (Some params)) s0 = (Resolved res, s1) ->
    fst (getWeatherData get this params no_call_options (mkWorld s0 [])) =
    Resolved (match item_path res with
              | JUndefined => JArr []
              | item => item
              end).

(** "Built-in default (Accept: application/json) < adapter-level configured
    defaults < per-call options", later wins on key collision. *)
Definition merged_headers (this : Fetch.Client) (options : Fetch.Options)
    : gmap string string :=
  Fetch.spread_headers (Fetch.headers options) ∪
  (Fetch.spread_headers (Fetch.headers (Fetch.defaultOptions this)) ∪
   {[ "Accept" := "application/json" ]}).

End Stated.

(* ===================================================================== *)
(** ** Test doubles                                                       *)
(* ===================================================================== *)

Module Doubles.

(** Thunks over a counter of their own invocations: [flaky k e res]
    rejects with [e] the first [k] times and resolves with [res] from then
    on; [broken e] always rejects; [steady res] always resolves. *)
Definition flaky (k : nat) (e : Thrown) (res : JsVal) : nat -> Settled JsVal * nat :=
  fun n => (if (n <? k)%nat then Rejected e else Resolved res, S n).

Definition broken (e : Thrown) : nat -> Settled JsVal * nat :=
  fun n => (Rejected e, S n).

Definition steady (res : JsVal) : nat -> Settled JsVal * nat :=
  fun n => (Resolved res, S n).

Definition not_found : Thrown := HttpError "Not Found" 404 JNull.
Definition teapot : Thrown := Failure 418 "I'm a teapot" "http://host/pot".

(** What [Promise.reject()] rejects with. *)
Definition nothing : Thrown := Raw PUndefined.

(** A [fetch] that answers every call the same way and keeps the calls
    (URL and options) it was given. *)
Definition recording (answer : Settled Fetch.Response)
    : string -> Fetch.Options -> list (string * Fetch.Options) ->
      Settled Fetch.Response * list (string * Fetch.Options) :=
  fun url options calls => (answer, (calls ++ [(url, options)])%list).

(** A [fetch] that answers every call with the response [r]. *)
Definition answering (r : Fetch.Response)
    : string -> Fetch.Options -> unit -> Settled Fetch.Response * unit :=
  fun _ _ s => (Resolved r, s).

Definition json_404 : Fetch.Response :=
  Fetch.mkResponse 404 "Not Found" "http://host/missing" (Some "application/json")
    (Resolved (JObj [("message", JStr "no such station")]))
    "{message:'no such station'}".

Definition broken_json_200 : Fetch.Response :=
  Fetch.mkResponse 200 "OK" "http://host/list" (Some "application/json; charset=utf-8")
    (Rejected (Error "Unexpected token < in JSON at position 0"))
    "<html>".

Definition plain_text_200 : Fetch.Response :=
  Fetch.mkResponse 200 "OK" "http://host/motd" (Some "text/plain")
    (Rejected (Error "Unexpected token h in JSON at position 0"))
    "hello".

(** A client whose [get] resolves with [res] whatever it is asked, over a
    counter of the calls. *)
Definition serving (res : JsVal)
    : Fetch.Client -> string -> Fetch.Options -> nat -> Settled JsVal * nat :=
  fun _ _ _ n => (Resolved res, S n).

Definition seoul : JsVal := JObj [("stnId", JStr "108"); ("avgTa", JStr "5.1")].

Definition weather_body : JsVal :=
  JObj [("response",
         JObj [("header", JObj [("resultCode", JStr "00")]);
               ("body", JObj [("dataType", JStr "JSON");
                              ("items", JObj [("item", JArr [seoul])])])])].


Definition rejecting : JsVal -> Completion :=
  fun _ => Returns (Rejected (Error "unexpected shape")).

(** A client whose [get] resolves with [first] on its first call and with
    [later] from then on, over a counter of the calls. *)
Definition serving_then (first later : JsVal)
    : Fetch.Client -> string -> Fetch.Options -> nat -> Settled JsVal * nat :=
  fun _ _ _ n => (Resolved (match n with O => first | S _ => later end), S n).

Definition no_items_body : JsVal :=
  JObj [("response",
         JObj [("header", JObj [("resultCode", JStr "03")]);
               ("body", JObj [("dataType", JStr "JSON"); ("items", JStr "")])])].

Definition null_body_500 : Fetch.Response :=
  Fetch.mkResponse 500 "Internal Server Error" "http://host/list"
    (Some "application/json") (Resolved JNull) "null".

Definition numeric_message_500 : Fetch.Response :=
  Fetch.mkResponse 500 "Internal Server Error" "http://host/list"
    (Some "application/json") (Resolved (JObj [("message", JNum 7)])) "{message:7}".

(** A client whose [get] rejects with [e] whatever it is asked. *)
Definition unreachable (e : Thrown)
    : Fetch.Client -> string -> Fetch.Options -> nat -> Settled JsVal * nat :=
  fun _ _ _ n => (Rejected e, S n).

Definition weather_params : list (string * string) :=
  [("pageNo", "1"); ("numOfRows", "10"); ("dataType", "JSON"); ("stnIds", "108")].

End Doubles.

(* ===================================================================== *)
(** ** Properties of the retry loop                                       *)
(* ===================================================================== *)

Module RetryFacts.
Import ApiService.

Section Loop.
Context {St : Type}.
Variable requestFn : St -> Settled JsVal * St.
Variables retries retryDelay : Z.
Variable errorMessage : string.
Variable transformResponse : JsVal -> Completion.
Variable validateStatus : option (JsVal -> bool).

Abbreviation try_block := (try_block requestFn transformResponse validateStatus).
Abbreviation tryRequest :=
  (tryRequest requestFn retries retryDelay errorMessage transformResponse validateStatus).
Abbreviation attempt := (attempt requestFn transformResponse validateStatus).
Abbreviation outcome := (outcome requestFn transformResponse validateStatus).
Abbreviation state_before := (state_before requestFn transformResponse validateStatus).

(** The [try] block is one [attempt] plus its [Invoke] event. *)
Lemma try_block_attempt (w : World St) :
  try_block w =
  (match fst (attempt (w_state w)) with
   | Returns p => Resolved p
   | Throws e => Rejected e
   end,
   mkWorld (snd (attempt (w_state w))) (w_trace w ++ [Invoke])).
Proof.
  unfold ApiService.try_block, ApiService.attempt, bind, await_call, throw, ret, call.
  destruct (requestFn (w_state w)) as [[res | e] s']; simpl; [|reflexivity].
  destruct (validation_fails validateStatus res); simpl; [reflexivity |].
  destruct (transformResponse res); reflexivity.
Qed.

(** The body of [tryRequest], as the source has it. *)
Lemma tryRequest_unfold (attempts : Z) (w : World St) :
  tryRequest attempts w =
  match try_block w with
  | (Resolved p, w1) => (p, w1)
  | (Rejected err, w1) =>
      if attempts <? retries
      then tryRequest (attempts + 1) (snd (sleep retryDelay w1))
      else (final_failure errorMessage err, w1)
  end.
Proof.
  simp tryRequest.
  destruct (try_block w) as [[p | err] w1]; simpl; [reflexivity|].
  destruct (Z_lt_dec attempts retries) as [Hlt | Hge]; simpl.
  - apply Z.ltb_lt in Hlt. rewrite Hlt. reflexivity.
  - apply Z.ltb_nlt in Hge. rewrite Hge. reflexivity.
Qed.

(** Budget exhausted: in attempts [0 .. k] the [try] block throws, [k]
    being the retries that were left; the [catch] gives up on the last
    throw. *)
Lemma tryRequest_exhausted (k : nat) :
  forall (attempts : Z) (w : World St) (e : Thrown),
    Z.to_nat (retries - attempts) = k ->
    (forall j, (j < k)%nat -> exists e', outcome j (w_state w) = Throws e') ->
    outcome k (w_state w) = Throws e ->
    tryRequest attempts w =
    (final_failure errorMessage e,
     mkWorld (state_before (Datatypes.S k) (w_state w))
             (w_trace w ++ retry_trace k retryDelay)).
Proof.
  induction k as [| k IH]; intros attempts w e Hk Hfail Hlast;
    rewrite tryRequest_unfold, try_block_attempt.
  - unfold ApiService.outcome in Hlast. simpl in Hlast. rewrite Hlast.
    assert ((attempts <? retries) = false) as -> by (apply Z.ltb_ge; lia).
    reflexivity.
  - destruct (Hfail 0%nat (Nat.lt_0_succ _)) as [e0 He0].
    unfold ApiService.outcome in He0. simpl in He0. rewrite He0.
    assert ((attempts <? retries) = true) as -> by (apply Z.ltb_lt; lia).
    rewrite (IH (attempts + 1) _ e); simpl.
    + rewrite <- !app_assoc. reflexivity.
    + lia.
    + intros j Hj. apply (Hfail (Datatypes.S j)). lia.
    + exact Hlast.
Qed.

(** Attempt [j] is the first whose [try] block returns, within the
    budget: the call settles as the returned value does. *)
Lemma tryRequest_returns (j : nat) :
  forall (attempts : Z) (w : World St) (p : Settled JsVal),
    (j <= Z.to_nat (retries - attempts))%nat ->
    (forall i, (i < j)%nat -> exists e', outcome i (w_state w) = Throws e') ->
    outcome j (w_state w) = Returns p ->
    tryRequest attempts w =
    (p,
     mkWorld (state_before (Datatypes.S j) (w_state w))
             (w_trace w ++ retry_trace j retryDelay)).
Proof.
  induction j as [| j IH]; intros attempts w p Hj Hfail Hok;
    rewrite tryRequest_unfold, try_block_attempt.
  - unfold ApiService.outcome in Hok. simpl in Hok. rewrite Hok. reflexivity.
  - destruct (Hfail 0%nat (Nat.lt_0_succ _)) as [e0 He0].
    unfold ApiService.outcome in He0. simpl in He0. rewrite He0.
    assert ((attempts <? retries) = true) as -> by (apply Z.ltb_lt; lia).
    rewrite (IH (attempts + 1) _ p); simpl.
    + rewrite <- !app_assoc. reflexivity.
    + lia.
    + intros i Hi. apply (Hfail (Datatypes.S i)). lia.
    + exact Hok.
Qed.

(** A run stops at attempt [k]: the first whose [try] block returns, or
    the one that uses up the budget [n]. *)
Lemma tryRequest_run (n : nat) :
  forall (attempts : Z) (w : World St),
    Z.to_nat (retries - attempts) = n ->
    exists k,
      (k <= n)%nat /\
      (forall j, (j < k)%nat -> exists e, outcome j (w_state w) = Throws e) /\
      ((k < n)%nat -> exists p, outcome k (w_state w) = Returns p) /\
      tryRequest attempts w =
      (settle errorMessage (outcome k (w_state w)),
       mkWorld (state_before (Datatypes.S k) (w_state w))
               (w_trace w ++ retry_trace k retryDelay)).
Proof.
  induction n as [| n IH]; intros attempts w Hn.
  - exists 0%nat. split; [lia |]. split; [intros j Hj; lia |]. split; [lia |].
    destruct (outcome 0 (w_state w)) as [p | e] eqn:E.
    + apply tryRequest_returns; [lia | intros i Hi; lia | exact E].
    + apply tryRequest_exhausted; [exact Hn | intros j Hj; lia | exact E].
  - destruct (outcome 0 (w_state w)) as [p | e] eqn:E.
    + exists 0%nat. split; [lia |]. split; [intros j Hj; lia |].
      split; [intros _; eauto |].
      rewrite E. apply tryRequest_returns; [lia | intros i Hi; lia | exact E].
    + rewrite tryRequest_unfold, try_block_attempt.
      unfold ApiService.outcome in E. simpl in E. rewrite E.
      assert ((attempts <? retries) = true) as -> by (apply Z.ltb_lt; lia).
      destruct (IH (attempts + 1)
                  (snd (sleep retryDelay
                          (mkWorld (snd (attempt (w_state w)))
                                   (w_trace w ++ [Invoke])))))
        as [k [Hk [Hfail [Hstop Hrun]]]]; [lia |].
      exists (Datatypes.S k). split; [lia |]. split; [| split].
      * intros j Hj. destruct j as [| j]; [exists e; exact E |].
        apply Hfail. lia.
      * intros Hlt. apply Hstop. lia.
      * rewrite Hrun. simpl. rewrite <- !app_assoc. reflexivity.
Qed.

(** The state of the thunk before attempt [k] is its state after [k]
    invocations. *)
Lemma attempt_state (s : St) : snd (attempt s) = snd (requestFn s).
Proof.
  unfold ApiService.attempt. destruct (requestFn s) as [[res | e] s']; [| reflexivity].
  destruct (validation_fails validateStatus res); reflexivity.
Qed.

Lemma state_before_thunk_state (k : nat) (s : St) :
  state_before k s = thunk_state requestFn k s.
Proof.
  revert s. induction k as [| k IH]; intros s; simpl; [reflexivity |].
  rewrite attempt_state. apply IH.
Qed.

End Loop.

Lemma invocations_retry_trace (k : nat) (ms : Z) :
  invocations (retry_trace k ms) = Datatypes.S k.
Proof. induction k; simpl; congruence. Qed.

Lemma waits_retry_trace (k : nat) (ms : Z) :
  waits (retry_trace k ms) = repeat ms k.
Proof. induction k; simpl; congruence. Qed.

(** A thunk that always fails makes the [try] block throw in every
    attempt, the thunk's own failure. *)
Lemma always_fails_outcome {St} (requestFn : St -> Settled JsVal * St)
    transformResponse validateStatus (k : nat) (s : St) :
  always_fails requestFn ->
  exists e,
    outcome requestFn transformResponse validateStatus k s = Throws e /\
    fst (requestFn (thunk_state requestFn k s)) = Rejected e.
Proof.
  intros Hfail. unfold outcome, attempt.
  rewrite (state_before_thunk_state requestFn transformResponse validateStatus).
  destruct (Hfail (thunk_state requestFn k s)) as [e He].
  exists e. destruct (requestFn _) as [r s']. simpl in He. subst r. auto.
Qed.

(** [final_failure] on a failure that is not [undefined] or [null]. *)
Lemma final_failure_enhanced (errorMessage : string) (e : Thrown) :
  nullish e = false ->
  final_failure errorMessage e = Rejected (Enhanced (final_message errorMessage e) e).
Proof. destruct e as [| | | | | []]; simpl; try reflexivity; discriminate. Qed.

Lemma status_not_nullish (e : Thrown) (status : Z) :
  err_status e = Some status -> nullish e = false.
Proof. destruct e as [| | | | | []]; simpl; try reflexivity; discriminate. Qed.

(** The same for [request]. *)
Lemma request_run {St} (requestFn : St -> Settled JsVal * St)
    (options : RequestOptions) (s0 : St) :
  let transform := or_default (transformResponse options) (fun d => Returns (Resolved d)) in
  let N := Z.to_nat (or_default (retries options) 1%Z) in
  exists k,
    (k <= N)%nat /\
    (forall j, (j < k)%nat ->
       exists e, outcome requestFn transform (validateStatus options) j s0 = Throws e) /\
    ((k < N)%nat ->
       exists p, outcome requestFn transform (validateStatus options) k s0 = Returns p) /\
    request requestFn options (mkWorld s0 []) =
    (settle (or_default (errorMessage options) "API request failed.")
            (outcome requestFn transform (validateStatus options) k s0),
     mkWorld (thunk_state requestFn (S k) s0)
             (retry_trace k (or_default (retryDelay options) 1000))).
Proof.
  intros transform N. unfold request.
  destruct (tryRequest_run requestFn (or_default (retries options) 1)
              (or_default (retryDelay options) 1000)
              (or_default (errorMessage options) "API request failed.")
              transform (validateStatus options) N 0 (mkWorld s0 []))
    as [k Hk]; [unfold N; lia |].
  exists k.
  rewrite <- (state_before_thunk_state requestFn transform (validateStatus options)).
  exact Hk.
Qed.

(** The run of [request] when the [try] block throws in every attempt up
    to the budget. *)
Lemma request_exhausted {St} (requestFn : St -> Settled JsVal * St)
    (options : RequestOptions) (s0 : St) (e : Thrown) :
  let transform := or_default (transformResponse options) (fun d => Returns (Resolved d)) in
  let N := Z.to_nat (or_default (retries options) 1) in
  (forall j, (j < N)%nat ->
     exists e', outcome requestFn transform (validateStatus options) j s0 = Throws e') ->
  outcome requestFn transform (validateStatus options) N s0 = Throws e ->
  request requestFn options (mkWorld s0 []) =
  (final_failure (or_default (errorMessage options) "API request failed.") e,
   mkWorld (thunk_state requestFn (S N) s0)
           (retry_trace N (or_default (retryDelay options) 1000))).
Proof.
  intros transform N Hfail Hlast. unfold request.
  rewrite (tryRequest_exhausted requestFn _ _ _ _ _ N 0 (mkWorld s0 []) e);
    [rewrite (state_before_thunk_state requestFn transform (validateStatus options));
     reflexivity | unfold N; lia
    | exact Hfail | exact Hlast].
Qed.

(** The run of [request] when attempt [j], within the budget, is the first
    whose [try] block returns. *)
Lemma request_returns {St} (requestFn : St -> Settled JsVal * St)
    (options : RequestOptions) (s0 : St) (j : nat) (p : Settled JsVal) :
  let transform := or_default (transformResponse options) (fun d => Returns (Resolved d)) in
  (j <= Z.to_nat (or_default (retries options) 1%Z))%nat ->
  (forall i, (i < j)%nat ->
     exists e', outcome requestFn transform (validateStatus options) i s0 = Throws e') ->
  outcome requestFn transform (validateStatus options) j s0 = Returns p ->
  request requestFn options (mkWorld s0 []) =
  (p,
   mkWorld (thunk_state requestFn (S j) s0)
           (retry_trace j (or_default (retryDelay options) 1000))).
Proof.
  intros transform Hj Hfail Hok. unfold request.
  rewrite (tryRequest_returns requestFn _ _ _ _ _ j 0 (mkWorld s0 []) p);
    [rewrite (state_before_thunk_state requestFn transform (validateStatus options));
     reflexivity | lia | exact Hfail | exact Hok].
Qed.

End RetryFacts.

(* ===================================================================== *)
(** ** ApiService.request: attempts, waits and the final failure          *)
(* ===================================================================== *)

Module RequestSpec.
Import ApiService RetryFacts.

Lemma entry_mapped (status : Z) :
  (exists m, entry status messages = Some m) <-> In status mapped_statuses.
Proof.
  unfold messages, mapped_statuses. simpl.
  repeat match goal with
         | |- context [status =? ?k] => destruct (Z.eqb_spec status k)
         end; subst; split; intros H; try (eexists; reflexivity); try tauto;
    try (destruct H as [m H]; discriminate); intuition lia.
Qed.

Lemma message_unmapped (status : Z) (fallback : string) :
  ~ In status mapped_statuses ->
  getErrorMessageByStatus status fallback = fallback.
Proof.
  intros Hno. unfold getErrorMessageByStatus.
  destruct (entry status messages) as [m |] eqn:E; [|reflexivity].
  exfalso. apply Hno, entry_mapped. eauto.
Qed.

Lemma final_message_unmapped (fallback : string) (e : Thrown) (status : Z) :
  err_status e = Some status ->
  ~ In status mapped_statuses ->
  final_message fallback e = fallback.
Proof.
  intros He Hno. unfold final_message. rewrite He.
  destruct (truthy (JNum status)); [apply message_unmapped; exact Hno | reflexivity].
Qed.

Lemma final_message_no_status (fallback : string) (e : Thrown) :
  err_status e = None -> final_message fallback e = fallback.
Proof. intros He. unfold final_message. rewrite He. reflexivity. Qed.

(** Every status of the table is the status of a response that is not ok,
    is truthy, and selects its message whatever the fallback is. *)
Lemma mapped_status_message (status : Z) :
  In status mapped_statuses ->
  exists msg,
    entry status messages = Some msg /\
    negb (status =? 0) = true /\
    (200 <=? status) && (status <=? 299) = false /\
    forall fallback e, err_status e = Some status -> final_message fallback e = msg.
Proof.
  unfold mapped_statuses. simpl.
  intros [<- | [<- | [<- | [<- | [<- | [<- | []]]]]]];
    eexists; (split; [reflexivity |]); (split; [reflexivity |]);
    (split; [reflexivity |]); intros fallback e He; unfold final_message; rewrite He;
    reflexivity.
Qed.

Lemma final_message_mapped (fallback : string) (e : Thrown) (status : Z) (msg : string) :
  err_status e = Some status ->
  entry status messages = Some msg ->
  final_message fallback e = msg.
Proof.
  intros He Hentry.
  destruct (mapped_status_message status) as [msg' [Hentry' [_ [_ Hmsg]]]].
  - apply entry_mapped. eauto.
  - rewrite (Hmsg fallback e He). congruence.
Qed.

Lemma final_failure_rejected (fallback : string) (e : Thrown) :
  exists x, final_failure fallback e = Rejected x.
Proof. unfold final_failure. destruct (read_status e); eauto. Qed.

(** C1: with [retries] the non-negative integer [N] (the default being 1),
    no run invokes the thunk more than [N + 1] times, and the thunk is left
    in the state that many invocations put it in; a thunk that fails on
    every invocation is invoked exactly [N + 1] times, after which the call
    fails, on the failure of invocation [N + 1]. *)
Theorem request_attempts_retries_plus_one :
  forall (St : Type) (requestFn : St -> Settled JsVal * St)
         (options : RequestOptions) (s0 : St) (N : nat),
    retries options = Some (Z.of_nat N) \/ (retries options = None /\ N = 1%nat) ->
    let run := request requestFn options (mkWorld s0 []) in
    (attempts_made run <= N + 1)%nat /\
    w_state (snd run) = thunk_state requestFn (attempts_made run) s0 /\
    (always_fails requestFn ->
     attempts_made run = (N + 1)%nat /\
     w_state (snd run) = thunk_state requestFn (N + 1) s0 /\
     exists e x,
       fst (requestFn (thunk_state requestFn N s0)) = Rejected e /\
       fst run = final_failure (or_default (errorMessage options) "API request failed.") e /\
       fst run = Rejected x).
Proof.
  intros St requestFn options s0 N HN run.
  assert (Z.to_nat (or_default (retries options) 1) = N) as HN'.
  { destruct HN as [-> | [-> ->]]; simpl; lia. }
  destruct (request_run requestFn options s0) as [k [Hk [_ [_ Hrun]]]].
  rewrite HN' in Hk.
  split; [| split].
  - unfold attempts_made, run. rewrite Hrun. simpl.
    rewrite invocations_retry_trace. lia.
  - unfold attempts_made, run. rewrite Hrun. simpl.
    rewrite invocations_retry_trace. reflexivity.
  - intros Hfail.
    destruct (always_fails_outcome requestFn
                (or_default (transformResponse options) (fun d => Returns (Resolved d)))
                (validateStatus options) N s0 Hfail) as [e [He Hcall]].
    assert (run =
            (final_failure (or_default (errorMessage options) "API request failed.") e,
             mkWorld (thunk_state requestFn (S N) s0)
                     (retry_trace N (or_default (retryDelay options) 1000)))) as Hex.
    { unfold run. rewrite <- HN' at 1 2.
      apply (request_exhausted requestFn options s0 e); rewrite HN'.
      - intros j _.
        destruct (always_fails_outcome requestFn
                    (or_default (transformResponse options)
                                (fun d => Returns (Resolved d)))
                    (validateStatus options) j s0 Hfail) as [e' [He' _]].
        eauto.
      - exact He. }
    rewrite Hex. unfold attempts_made. simpl. rewrite invocations_retry_trace.
    replace (N + 1)%nat with (S N) by lia.
    split; [reflexivity |]. split; [reflexivity |].
    destruct (final_failure_rejected (or_default (errorMessage options) "API request failed.") e)
      as [x Hx].
    exists e, x. auto.
Qed.


(** C8 (as amended): with [retries] 0 and a thunk whose one invocation
    fails, the thunk is invoked once and nothing is waited for; the call
    then fails with the enhanced failure whose cause is that failure when
    the failure is not [undefined] or [null], and with the TypeError of
    reading [err.status] when it is. *)
Theorem no_retry_fails_at_once :
  forall (St : Type) (requestFn : St -> Settled JsVal * St)
         (options : RequestOptions) (s0 s1 : St) (e : Thrown),
    retries options = Some 0 ->
    requestFn s0 = (Rejected e, s1) ->
    let fallback := or_default (errorMessage options) "API request failed." in
    let run := request requestFn options (mkWorld s0 []) in
    snd run = mkWorld s1 [Invoke] /\
    attempts_made run = 1%nat /\
    waits (w_trace (snd run)) = [] /\
    (nullish e = false ->
     fst run = Rejected (Enhanced (final_message fallback e) e)) /\
    (e = Raw PUndefined ->
     fst run = Rejected (Error "Cannot read properties of undefined (reading 'status')")) /\
    (e = Raw PNull ->
     fst run = Rejected (Error "Cannot read properties of null (reading 'status')")).
Proof.
  intros St requestFn options s0 s1 e Hr Hcall fallback run.
  assert (run = (final_failure fallback e, mkWorld s1 [Invoke])) as Hrun.
  { unfold run. rewrite (request_exhausted requestFn options s0 e); rewrite Hr; simpl.
    - rewrite Hcall. reflexivity.
    - intros j Hj. lia.
    - unfold outcome, attempt. simpl. rewrite Hcall. reflexivity. }
  rewrite Hrun. simpl. repeat split.
  - apply final_failure_enhanced.
  - intros ->. reflexivity.
  - intros ->. reflexivity.
Qed.

(** C8 (as stated) fails: a thunk that rejects with [undefined] makes the
    one attempt end in the TypeError, not in an enhanced failure. *)
Lemma single_failure_is_enhanced_fails_on_undefined :
  ~ Stated.single_failure_is_enhanced.
Proof.
  intros H.
  destruct (H nat (Doubles.broken Doubles.nothing) (mkOptions (Some 0) None None None None)
              0%nat 1%nat Doubles.nothing eq_refl eq_refl) as [_ [_ [message Hrun]]].
  vm_compute in Hrun. discriminate.
Qed.

(** C9: a thunk that fails twice and then resolves, run with [retries] at
    least 2, returns what [transformResponse] returns for that result,
    after three invocations and two waits; a thunk that always resolves
    with [{ a: 1 }], run with [transformResponse = r => r.a] under any
    [retries], [retryDelay] and [errorMessage], returns 1 on its first
    invocation, without a wait. *)
Theorem transform_applied_on_success :
  forall (St : Type) (requestFn : St -> Settled JsVal * St) (options : RequestOptions),
    let transform :=
      or_default (transformResponse options) (fun d => Returns (Resolved d)) in
    let delay := or_default (retryDelay options) 1000 in
    (forall (s0 s1 s2 s3 : St) (e1 e2 : Thrown) (res v : JsVal),
        requestFn s0 = (Rejected e1, s1) ->
        requestFn s1 = (Rejected e2, s2) ->
        requestFn s2 = (Resolved res, s3) ->
        2 <= or_default (retries options) 1 ->
        lets_through (validateStatus options) res ->
        transform res = Returns (Resolved v) ->
        request requestFn options (mkWorld s0 []) =
        (Resolved v, mkWorld s3 [Invoke; Sleep delay; Invoke; Sleep delay; Invoke])) /\
    (forall (s0 : St),
        (forall s, fst (requestFn s) = Resolved (JObj [("a", JNum 1)])) ->
        transformResponse options = Some (fun r => sync (get r "a")) ->
        lets_through (validateStatus options) (JObj [("a", JNum 1)]) ->
        request requestFn options (mkWorld s0 []) =
        (Resolved (JNum 1), mkWorld (snd (requestFn s0)) [Invoke])).
Proof.
  intros St requestFn options transform delay. split.
  - intros s0 s1 s2 s3 e1 e2 res v H0 H1 H2 Hr Hv Ht.
    assert (attempt requestFn transform (validateStatus options) s0 = (Throws e1, s1))
      as A0 by (unfold attempt; rewrite H0; reflexivity).
    assert (attempt requestFn transform (validateStatus options) s1 = (Throws e2, s2))
      as A1 by (unfold attempt; rewrite H1; reflexivity).
    assert (attempt requestFn transform (validateStatus options) s2 =
            (Returns (Resolved v), s3)) as A2.
    { unfold attempt. rewrite H2. unfold lets_through in Hv. rewrite Hv, Ht.
      reflexivity. }
    rewrite (request_returns requestFn options s0 2 (Resolved v)).
    + cbn [thunk_state]. rewrite H0. cbn [snd]. rewrite H1. cbn [snd].
      rewrite H2. reflexivity.
    + lia.
    + intros i Hi. unfold outcome. destruct i as [| [| i]]; [| | lia].
      * exists e1. cbn [state_before]. fold transform. rewrite A0. reflexivity.
      * exists e2. cbn [state_before]. fold transform. rewrite A0. cbn [snd].
        rewrite A1. reflexivity.
    + unfold outcome. cbn [state_before]. fold transform. rewrite A0. cbn [snd].
      rewrite A1. cbn [snd]. rewrite A2. reflexivity.
  - intros s0 Hres Htr Hv.
    assert (attempt requestFn transform (validateStatus options) s0 =
            (Returns (Resolved (JNum 1)), snd (requestFn s0))) as Hatt.
    { unfold attempt. specialize (Hres s0). destruct (requestFn s0) as [r s']. simpl in *.
      subst r. unfold lets_through in Hv. rewrite Hv. unfold transform. rewrite Htr.
      reflexivity. }
    rewrite (request_returns requestFn options s0 0 (Resolved (JNum 1))).
    + reflexivity.
    + lia.
    + intros i Hi. lia.
    + unfold outcome. cbn [state_before]. fold transform. rewrite Hatt. reflexivity.
Qed.

(** Under a validator that rejects everything the [try] block throws in
    every attempt; when the thunk itself resolves, it throws the validation
    error. *)
Lemma rejects_all_outcome {St} (requestFn : St -> Settled JsVal * St)
    transform validateStatus (k : nat) (s : St) :
  rejects_all validateStatus ->
  exists e,
    outcome requestFn transform validateStatus k s = Throws e /\
    (always_resolves requestFn -> e = Error "Custom validation failed.").
Proof.
  intros [reject [-> Hrej]]. unfold outcome, attempt, always_resolves.
  set (s' := state_before requestFn transform (Some reject) k s).
  destruct (requestFn s') as [[res | e] s''] eqn:E.
  - simpl. rewrite Hrej. simpl. eauto.
  - simpl. exists e. split; [reflexivity |].
    intros Hres. destruct (Hres s') as [res Hr]. rewrite E in Hr. discriminate.
Qed.

(** C2 (as amended): a run whose validator rejects every response of a
    thunk that resolves and a run whose thunk fails on every invocation
    make the same attempts and the same waits.  The first ends in the
    enhanced failure with the fallback message and the validation error as
    cause.  The second ends as the [catch] gives up on the thunk's last
    failure [c]: when [c] is not [undefined] or [null], in the enhanced
    failure with cause [c], whose message is the table's entry for the
    status of [c] when there is one and the fallback otherwise; when [c] is
    [undefined] or [null], in a TypeError, which is no enhanced failure. *)
Theorem validator_rejection_retried_like_failure :
  forall (St1 St2 : Type) (requestFn : St1 -> Settled JsVal * St1)
         (failing : St2 -> Settled JsVal * St2)
         (options : RequestOptions) (reject other : option (JsVal -> bool))
         (s1 : St1) (s2 : St2) (c : Thrown),
    rejects_all reject ->
    always_resolves requestFn ->
    always_fails failing ->
    let N := Z.to_nat (or_default (retries options) 1) in
    let delay := or_default (retryDelay options) 1000 in
    let fallback := or_default (errorMessage options) "API request failed." in
    let validated :=
      request requestFn (with_validateStatus options reject) (mkWorld s1 []) in
    let failed :=
      request failing (with_validateStatus options other) (mkWorld s2 []) in
    fst (failing (thunk_state failing N s2)) = Rejected c ->
    snd validated = mkWorld (thunk_state requestFn (S N) s1) (retry_trace N delay) /\
    snd failed = mkWorld (thunk_state failing (S N) s2) (retry_trace N delay) /\
    attempts_made validated = attempts_made failed /\
    fst validated = Rejected (Enhanced fallback (Error "Custom validation failed.")) /\
    fst failed = final_failure fallback c /\
    (nullish c = false ->
     fst failed = Rejected (Enhanced (final_message fallback c) c) /\
     (forall status msg,
         err_status c = Some status -> entry status messages = Some msg ->
         final_message fallback c = msg) /\
     (err_status c = None \/
      (exists status, err_status c = Some status /\ ~ In status mapped_statuses) ->
      final_message fallback c = fallback)) /\
    (nullish c = true -> enhanced_failure (fst failed) = false).
Proof.
  intros St1 St2 requestFn failing options reject other s1 s2 c Hrej Hres Hfail
         N delay fallback validated failed Hlast.
  set (transform := or_default (transformResponse options) (fun d => Returns (Resolved d))).
  destruct (rejects_all_outcome requestFn transform reject N s1 Hrej) as [c1 [Hc1 Hval]].
  rewrite (Hval Hres) in Hc1.
  destruct (always_fails_outcome failing transform other N s2 Hfail) as [c2 [Hc2 Hcall]].
  assert (c2 = c) as -> by congruence.
  assert (validated =
          (final_failure fallback (Error "Custom validation failed."),
           mkWorld (thunk_state requestFn (S N) s1) (retry_trace N delay))) as Hv.
  { unfold validated.
    apply (request_exhausted requestFn (with_validateStatus options reject) s1
             (Error "Custom validation failed.")).
    - intros j _.
      destruct (rejects_all_outcome requestFn transform reject j s1 Hrej) as [e [He _]].
      eauto.
    - exact Hc1. }
  assert (failed =
          (final_failure fallback c,
           mkWorld (thunk_state failing (S N) s2) (retry_trace N delay))) as Hf.
  { unfold failed.
    apply (request_exhausted failing (with_validateStatus options other) s2 c).
    - intros j _.
      destruct (always_fails_outcome failing transform other j s2 Hfail) as [e [He _]].
      eauto.
    - exact Hc2. }
  rewrite Hv, Hf. unfold attempts_made. simpl.
  repeat (split; [reflexivity |]).
  split.
  - intros Hn. split; [apply final_failure_enhanced; exact Hn |]. split.
    + intros status msg Hst Hentry. exact (final_message_mapped fallback c status msg Hst Hentry).
    + intros [Hnone | [status [Hst Hno]]].
      * exact (final_message_no_status fallback c Hnone).
      * exact (final_message_unmapped fallback c status Hst Hno).
  - intros Hn. destruct c as [| | | | | []]; simpl in *; try discriminate; reflexivity.
Qed.

(** C2 (as stated) fails: a thunk that rejects with [undefined] on every
    invocation makes the call end in the TypeError of reading
    [err.status], which has neither the message nor the cause of the
    enhanced failure that the rejecting validator's run ends in. *)
Lemma validator_rejection_differs_from_undefined :
  ~ Stated.validator_rejection_is_thunk_failure.
Proof.
  intros H.
  specialize (H nat (Doubles.steady JNull) (Doubles.broken Doubles.nothing)
                no_options 0%nat).
  destruct H as [_ [_ Hshape]].
  - intros s. eexists. reflexivity.
  - intros s. eexists. reflexivity.
  - vm_compute in Hshape. discriminate.
Qed.

(** *** The theorems above at concrete runs *)

Lemma broken_always_fails (e : Thrown) : always_fails (Doubles.broken e).
Proof. intros s. exists e. reflexivity. Qed.

Lemma steady_always_resolves (res : JsVal) : always_resolves (Doubles.steady res).
Proof. intros s. exists res. reflexivity. Qed.

Lemma request_attempts_retries_plus_one_witness :
  let options := mkOptions (Some 3) (Some 250) None None None in
  let run := request (Doubles.broken Doubles.not_found) options (mkWorld 0%nat []) in
  always_fails (Doubles.broken Doubles.not_found) /\
  (attempts_made run <= 4)%nat /\
  w_state (snd run) = 4%nat /\
  attempts_made run = 4%nat /\
  fst run = Rejected (Enhanced "데이터를 찾을 수 없습니다." Doubles.not_found).
Proof.
  intros options run.
  pose proof (broken_always_fails Doubles.not_found) as Hfail.
  destruct (request_attempts_retries_plus_one nat (Doubles.broken Doubles.not_found)
              options 0%nat 3 (or_introl eq_refl)) as [Hle [_ Hex]].
  destruct (Hex Hfail) as [Heq [Hstate [e [x [He [Hrun _]]]]]].
  inversion He. subst e.
  exact (conj Hfail (conj Hle (conj Hstate (conj Heq Hrun)))).
Defined.


Lemma no_retry_fails_at_once_witness :
  let options := mkOptions (Some 0) None None None None in
  let run := request (Doubles.broken Doubles.teapot) options (mkWorld 0%nat []) in
  let bare := request (Doubles.broken Doubles.nothing) options (mkWorld 0%nat []) in
  snd run = mkWorld 1%nat [Invoke] /\
  fst run = Rejected (Enhanced "API request failed." Doubles.teapot) /\
  snd bare = mkWorld 1%nat [Invoke] /\
  fst bare = Rejected (Error "Cannot read properties of undefined (reading 'status')").
Proof.
  intros options run bare.
  destruct (no_retry_fails_at_once nat (Doubles.broken Doubles.teapot) options
              0%nat 1%nat Doubles.teapot eq_refl eq_refl) as [Hw [_ [_ [Hrun _]]]].
  destruct (no_retry_fails_at_once nat (Doubles.broken Doubles.nothing) options
              0%nat 1%nat Doubles.nothing eq_refl eq_refl) as [Hw' [_ [_ [_ [Hbare _]]]]].
  exact (conj Hw (conj (Hrun eq_refl) (conj Hw' (Hbare eq_refl)))).
Defined.

Lemma transform_applied_on_success_witness :
  request (Doubles.flaky 2 Doubles.teapot (JObj [("a", JNum 7)]))
          (mkOptions (Some 2) (Some 10) None (Some (fun r => sync (get r "a"))) None)
          (mkWorld 0%nat []) =
    (Resolved (JNum 7), mkWorld 3%nat [Invoke; Sleep 10; Invoke; Sleep 10; Invoke]) /\
  request (Doubles.steady (JObj [("a", JNum 1)]))
          (mkOptions (Some 5) None None (Some (fun r => sync (get r "a")))
                     (Some (fun res => truthy res)))
          (mkWorld 0%nat []) =
    (Resolved (JNum 1), mkWorld 1%nat [Invoke]).
Proof.
  split.
  - refine (proj1 (transform_applied_on_success nat
              (Doubles.flaky 2 Doubles.teapot (JObj [("a", JNum 7)]))
              (mkOptions (Some 2) (Some 10) None (Some (fun r => sync (get r "a"))) None))
              0%nat 1%nat 2%nat 3%nat Doubles.teapot Doubles.teapot
              (JObj [("a", JNum 7)]) (JNum 7) eq_refl eq_refl eq_refl _ eq_refl eq_refl).
    simpl. lia.
  - refine (proj2 (transform_applied_on_success nat
              (Doubles.steady (JObj [("a", JNum 1)]))
              (mkOptions (Some 5) None None (Some (fun r => sync (get r "a")))
                         (Some (fun res => truthy res))))
              0%nat _ eq_refl eq_refl).
    intros s. reflexivity.
Defined.

Lemma validator_rejection_retried_like_failure_witness :
  let options := mkOptions (Some 2) (Some 50) None None None in
  let validated :=
    request (Doubles.steady JNull)
            (with_validateStatus options (Some (fun _ => false))) (mkWorld 0%nat []) in
  let failed :=
    request (Doubles.broken Doubles.not_found)
            (with_validateStatus options None) (mkWorld 0%nat []) in
  let bare :=
    request (Doubles.broken Doubles.nothing)
            (with_validateStatus options None) (mkWorld 0%nat []) in
  snd validated = mkWorld 3%nat [Invoke; Sleep 50; Invoke; Sleep 50; Invoke] /\
  snd failed = mkWorld 3%nat [Invoke; Sleep 50; Invoke; Sleep 50; Invoke] /\
  fst validated =
    Rejected (Enhanced "API request failed." (Error "Custom validation failed.")) /\
  fst failed = Rejected (Enhanced "데이터를 찾을 수 없습니다." Doubles.not_found) /\
  enhanced_failure (fst bare) = false.
Proof.
  intros options validated failed bare.
  assert (rejects_all (Some (fun _ : JsVal => false))) as Hrej
      by (exists (fun _ => false); split; reflexivity).
  destruct (validator_rejection_retried_like_failure nat nat (Doubles.steady JNull)
              (Doubles.broken Doubles.not_found) options (Some (fun _ => false)) None
              0%nat 0%nat Doubles.not_found Hrej (steady_always_resolves JNull)
              (broken_always_fails Doubles.not_found) eq_refl)
    as [Hv [Hf [_ [Hval [_ [Henh _]]]]]].
  destruct (validator_rejection_retried_like_failure nat nat (Doubles.steady JNull)
              (Doubles.broken Doubles.nothing) options (Some (fun _ => false)) None
              0%nat 0%nat Doubles.nothing Hrej (steady_always_resolves JNull)
              (broken_always_fails Doubles.nothing) eq_refl)
    as [_ [_ [_ [_ [_ [_ Hbare]]]]]].
  exact (conj Hv (conj Hf (conj Hval (conj (proj1 (Henh eq_refl)) (Hbare eq_refl))))).
Defined.

End RequestSpec.

(* ===================================================================== *)
(** ** The two client classes: headers, URLs, failures and bodies         *)
(* ===================================================================== *)

Module AdapterSpec.
Import Fetch.


(** [request] of HttpClient.js hands [fetch] the defaults overridden
    property by property: a call with headers replaces the default headers
    as a whole, and no Accept header is added. *)
Lemma request_options (answer : Settled Response) (this : Client) (endpoint : string)
    (options : Options) :
  snd (HttpClient.request (Doubles.recording answer) this endpoint options []) =
  [(HttpClient.buildUrl this endpoint, spread (defaultOptions this) options)].
Proof.
  unfold HttpClient.request, Doubles.recording.
  destruct answer as [r | e]; simpl; [| reflexivity].
  destruct (negb (ok r)); [reflexivity |].
  destruct (content_type r) as [ct |]; [| reflexivity].
  destruct (negb (String.eqb ct "") && includes ct "application/json"); [| reflexivity].
  reflexivity.
Qed.

(** C4 (the code at a failing input): a client configured with
    [{ headers: {} }] and a call with [{ headers: { 'X-Token': 't' } }];
    [fetch] receives the per-call headers alone, without Accept, where the
    stated merge keeps Accept. *)
Theorem per_call_headers_replace_merge :
  let this := mkClient "http://api/" (mkOptions None (Some ∅) None None) in
  let options := mkOptions None (Some {[ "X-Token" := "t" ]}) None None in
  snd (HttpClient2.get (Doubles.recording (Rejected (Error "offline")))
         this "items" options []) =
    [("http://api/items",
      mkOptions (Some "GET") (Some {[ "X-Token" := "t" ]}) None None)] /\
  ({[ "X-Token" := "t" ]} : gmap string string) !! "Accept" = None /\
  Stated.merged_headers this options !! "Accept" = Some "application/json" /\
  Stated.merged_headers this options !! "X-Token" = Some "t".
Proof.
  intros this options. split; [reflexivity |]. split; [| split].
  - apply lookup_singleton_ne. discriminate.
  - unfold Stated.merged_headers. simpl.
    rewrite lookup_union_r by (apply lookup_singleton_ne; discriminate).
    rewrite (left_id_L ∅ (∪)). apply lookup_singleton_eq.
  - unfold Stated.merged_headers. simpl.
    apply lookup_union_Some_l. apply lookup_singleton_eq.
Qed.

(** The one call [_fetch] makes. *)
Lemma _fetch_call (answer : Settled Response) (this : Client) (url : string)
    (options : Options) :
  snd (HttpClient2._fetch (Doubles.recording answer) this url options []) =
  [(url, HttpClient2.finalOptions this options)].
Proof.
  unfold HttpClient2._fetch, Doubles.recording.
  destruct answer as [r | e]; simpl; [| reflexivity].
  destruct (negb (ok r)); [| reflexivity].
  destruct (Js.get (HttpClient2.read_json r) "message"); reflexivity.
Qed.

Lemma hex_digit_unreserved (n : N) : unreserved (hex_digit n) = true.
Proof.
  destruct n as [| p]; [reflexivity |].
  repeat (destruct p as [p | p |]; try reflexivity).
Qed.

Lemma chars_app (a b : string) :
  list_ascii_of_string (a ++ b) = (list_ascii_of_string a ++ list_ascii_of_string b)%list.
Proof. induction a as [| c a IH]; simpl; [reflexivity | rewrite IH; reflexivity]. Qed.

Lemma form_safe_query_safe (l : list ascii) :
  forallb form_safe l = true -> forallb query_safe l = true.
Proof.
  induction l as [| c l IH]; simpl; [reflexivity |].
  intros H. apply andb_prop in H as [Hc Hl].
  rewrite (IH Hl). unfold query_safe. rewrite Hc. reflexivity.
Qed.

(** Form encoding leaves only unreserved characters, [+] and [%]. *)
Lemma form_encode_safe (s : string) :
  forallb form_safe (list_ascii_of_string (form_encode s)) = true.
Proof.
  induction s as [| c s IH]; simpl; [reflexivity |].
  destruct (unreserved c) eqn:Hc.
  - simpl. unfold form_safe at 1. rewrite Hc. exact IH.
  - destruct (Ascii.eqb c " "); simpl.
    + exact IH.
    + unfold form_safe at 1 2 3. rewrite !hex_digit_unreserved. simpl. exact IH.
Qed.

Lemma join_pairs_safe (params : list (string * string)) :
  forallb query_safe (list_ascii_of_string (URLSearchParams_toString params)) = true.
Proof.
  unfold URLSearchParams_toString.
  induction params as [| [k v] rest IH]; [reflexivity |].
  assert (forallb query_safe
            (list_ascii_of_string (form_encode k ++ "=" ++ form_encode v)) = true) as Hkv.
  { rewrite !chars_app, !forallb_app.
    rewrite !(form_safe_query_safe _ (form_encode_safe _)). reflexivity. }
  destruct rest as [| p rest]; [exact Hkv |].
  change (join "&" (map (fun '(k0, v0) => form_encode k0 ++ "=" ++ form_encode v0)
                        ((k, v) :: p :: rest)))
    with ((form_encode k ++ "=" ++ form_encode v) ++ "&" ++
          join "&" (map (fun '(k0, v0) => form_encode k0 ++ "=" ++ form_encode v0)
                        (p :: rest))).
  rewrite chars_app, forallb_app, Hkv. rewrite chars_app, forallb_app, IH. reflexivity.
Qed.

(** C5 (as amended): [get] of HttpClient.js asks [fetch] for the endpoint
    itself when it starts with [http] and for the base URL followed by the
    endpoint otherwise, and never adds a query; [get] of the second class
    always asks for the base URL followed by the endpoint, and then, when
    the serialized [params] are not empty, a [?] and that serialization,
    which consists of unreserved characters, [+], [%], [=] and [&]. *)
Theorem urls_requested :
  forall (this : Client) (endpoint : string) (options : Options)
         (answer : Settled Response),
    map fst (snd (HttpClient.get (Doubles.recording answer) this endpoint options [])) =
      [if String.prefix "http" endpoint then endpoint else baseUrl this ++ endpoint] /\
    map fst (snd (HttpClient2.get (Doubles.recording answer) this endpoint options [])) =
      [baseUrl this ++ endpoint ++ HttpClient2.query_suffix (params options)] /\
    forallb query_safe
      (list_ascii_of_string (HttpClient2.query_suffix (params options))) = true.
Proof.
  intros this endpoint options answer. split; [| split].
  - unfold HttpClient.get. rewrite request_options. reflexivity.
  - unfold HttpClient2.get. rewrite _fetch_call. reflexivity.
  - unfold HttpClient2.query_suffix.
    destruct (negb (String.eqb _ "")); [| reflexivity].
    rewrite chars_app, forallb_app, join_pairs_safe. reflexivity.
Qed.

(** C5 (as stated) fails for both classes: the first ignores the query
    parameters, the second prefixes an absolute endpoint with the base
    URL. *)
Lemma url_resolution_fails :
  ~ Stated.url_resolution (fun this endpoint _ => HttpClient.buildUrl this endpoint) /\
  ~ Stated.url_resolution HttpClient2._buildUrl.
Proof.
  split; intros H.
  - specialize (H (mkClient "http://api/" empty) "list" (Some [("q", "a b")])).
    vm_compute in H. discriminate.
  - specialize (H (mkClient "http://api/" empty) "http://other/x" None).
    vm_compute in H. discriminate.
Qed.

(** What [_fetch] throws for a body that is not [null]: it has the status
    of the response, and neither a status text nor a URL. *)
Lemma http_error_carries (m : JsVal) (status : Z) (data : JsVal) :
  err_status (HttpClient2.http_error m status data) = Some status /\
  err_statusText (HttpClient2.http_error m status data) = None /\
  err_url (HttpClient2.http_error m status data) = None.
Proof.
  unfold HttpClient2.http_error. destruct (truthy m); [| repeat split].
  destruct m; repeat split.
Qed.

(** C6 (as amended): on a response that is not ok, [request] of
    HttpClient.js rejects with the object holding the response's status,
    status text and URL.  [_fetch] of the second class rejects with an
    Error that carries the status and the decoded body and neither status
    text nor URL; its message is made from the body's [message] when that
    is truthy (it is that string when it is a string) and is 'HTTP error'
    otherwise.  On a body that is [null] the read of [data.message] throws,
    and [_fetch] rejects with that TypeError instead. *)
Theorem failure_of_non_ok_response :
  forall (St : Type) (fetch : string -> Options -> St -> Settled Response * St)
         (this : Client) (endpoint url : string) (options : Options)
         (s s' : St) (r : Response),
    ok r = false ->
    (fetch (HttpClient.buildUrl this endpoint) (spread (defaultOptions this) options) s
       = (Resolved r, s') ->
     HttpClient.request fetch this endpoint options s =
       (Rejected (Failure (status r) (statusText r) (Fetch.url r)), s')) /\
    (fetch url (HttpClient2.finalOptions this options) s = (Resolved r, s') ->
     let data := HttpClient2.read_json r in
     let m := get_opt data "message" in
     (data = JNull ->
      HttpClient2._fetch fetch this url options s =
        (Rejected (Error "Cannot read properties of null (reading 'message')"), s')) /\
     (data = JUndefined ->
      HttpClient2._fetch fetch this url options s =
        (Rejected (Error "Cannot read properties of undefined (reading 'message')"), s')) /\
     (data <> JNull -> data <> JUndefined ->
      HttpClient2._fetch fetch this url options s =
        (Rejected (HttpClient2.http_error m (status r) data), s') /\
      err_status (HttpClient2.http_error m (status r) data) = Some (status r) /\
      err_statusText (HttpClient2.http_error m (status r) data) = None /\
      err_url (HttpClient2.http_error m (status r) data) = None /\
      (truthy m = false ->
       HttpClient2.http_error m (status r) data = HttpError "HTTP error" (status r) data) /\
      (forall text, m = JStr text -> text <> "" ->
       HttpClient2.http_error m (status r) data = HttpError text (status r) data) /\
      (truthy m = true -> (forall text, m <> JStr text) ->
       HttpClient2.http_error m (status r) data = HttpErrorFrom m (status r) data))).
Proof.
  intros St fetch this endpoint url options s s' r Hok. split; intros Hcall.
  - unfold HttpClient.request. rewrite Hcall, Hok. reflexivity.
  - intros data m. unfold HttpClient2._fetch. rewrite Hcall, Hok. fold data. simpl.
    split; [intros ->; reflexivity |]. split; [intros ->; reflexivity |].
    intros Hn Hu.
    assert (Js.get data "message" = Resolved m) as ->
        by (unfold m; destruct data; try reflexivity; congruence).
    split; [reflexivity |].
    destruct (http_error_carries m (status r) data) as [H1 [H2 H3]].
    repeat (split; [assumption |]).
    unfold HttpClient2.http_error. split; [| split].
    + intros ->. reflexivity.
    + intros text -> Hne. simpl.
      destruct (String.eqb_spec text "") as [E | E]; [contradiction | reflexivity].
    + intros -> Hns. destruct m; try reflexivity. exfalso. exact (Hns s0 eq_refl).
Qed.

Lemma failure_of_non_ok_response_witness :
  let this := mkClient "http://host/" empty in
  ok Doubles.json_404 = false /\
  HttpClient.request (Doubles.answering Doubles.json_404) this "missing" empty tt =
    (Rejected (Failure 404 "Not Found" "http://host/missing"), tt) /\
  HttpClient2._fetch (Doubles.answering Doubles.json_404) this "http://host/missing"
    empty tt =
    (Rejected (HttpError "no such station" 404
                 (JObj [("message", JStr "no such station")])), tt) /\
  HttpClient2._fetch (Doubles.answering Doubles.null_body_500) this "http://host/list"
    empty tt =
    (Rejected (Error "Cannot read properties of null (reading 'message')"), tt) /\
  HttpClient2._fetch (Doubles.answering Doubles.numeric_message_500) this
    "http://host/list" empty tt =
    (Rejected (HttpErrorFrom (JNum 7) 500 (JObj [("message", JNum 7)])), tt).
Proof.
  intros this.
  destruct (failure_of_non_ok_response unit (Doubles.answering Doubles.json_404) this
              "missing" "http://host/missing" empty tt tt Doubles.json_404 eq_refl)
    as [Hrequest Hfetch].
  destruct (Hfetch eq_refl) as [_ [_ Hbody]].
  destruct Hbody as [Hrun _]; [discriminate | discriminate |].
  destruct (failure_of_non_ok_response unit (Doubles.answering Doubles.null_body_500) this
              "list" "http://host/list" empty tt tt Doubles.null_body_500 eq_refl)
    as [_ Hnull].
  destruct (Hnull eq_refl) as [Hnull' _].
  destruct (failure_of_non_ok_response unit (Doubles.answering Doubles.numeric_message_500)
              this "list" "http://host/list" empty tt tt Doubles.numeric_message_500
              eq_refl) as [_ Hnum].
  destruct (Hnum eq_refl) as [_ [_ Hnum']].
  destruct Hnum' as [Hnumrun _]; [discriminate | discriminate |].
  exact (conj eq_refl (conj (Hrequest eq_refl) (conj Hrun (conj (Hnull' eq_refl) Hnumrun)))).
Defined.

(** C6 (as stated) fails for the second class: its failure has no status
    text and no URL. *)
Lemma transport_failure_fails :
  ~ Stated.transport_failure (fun St => @HttpClient2.get St).
Proof.
  intros H.
  destruct (H unit (Doubles.answering Doubles.json_404) (mkClient "http://host/" empty)
              "missing" empty tt tt Doubles.json_404 (fun _ _ => eq_refl) eq_refl)
    as [e [Hrun [_ [Htext _]]]].
  vm_compute in Hrun. inversion Hrun; subst e. discriminate.
Qed.

(** C7 (as amended): on an ok response, [request] of HttpClient.js looks at
    the content type: when it includes application/json the call settles as
    [response.json()] does, so a decoding failure fails the call, and
    otherwise it resolves with the text; [_fetch] of the second class does
    not look at the content type: it resolves with the decoded JSON, or with
    [{ message: 'Invalid JSON response.' }] when decoding fails. *)
Theorem body_of_ok_response :
  forall (St : Type) (fetch : string -> Options -> St -> Settled Response * St)
         (this : Client) (endpoint url : string) (options : Options)
         (s s' : St) (r : Response),
    ok r = true ->
    (fetch (HttpClient.buildUrl this endpoint) (spread (defaultOptions this) options) s
       = (Resolved r, s') ->
     HttpClient.request fetch this endpoint options s =
       (if Stated.indicates_json r then json r else Resolved (JStr (text r)), s')) /\
    (fetch url (HttpClient2.finalOptions this options) s = (Resolved r, s') ->
     HttpClient2._fetch fetch this url options s =
       (Resolved (match json r with
                  | Resolved d => d
                  | Rejected _ => JObj [("message", JStr "Invalid JSON response.")]
                  end), s')).
Proof.
  intros St fetch this endpoint url options s s' r Hok. split; intros Hcall.
  - unfold HttpClient.request, Stated.indicates_json. rewrite Hcall, Hok. simpl.
    destruct (content_type r) as [ct |]; [| reflexivity].
    destruct (String.eqb_spec ct "") as [-> | Hne]; simpl; [reflexivity |].
    destruct (includes ct "application/json"); reflexivity.
  - unfold HttpClient2._fetch. rewrite Hcall, Hok. reflexivity.
Qed.

Lemma body_of_ok_response_witness :
  let this := mkClient "http://host/" empty in
  ok Doubles.broken_json_200 = true /\
  HttpClient.request (Doubles.answering Doubles.broken_json_200) this "list" empty tt =
    (Rejected (Error "Unexpected token < in JSON at position 0"), tt) /\
  HttpClient2._fetch (Doubles.answering Doubles.broken_json_200) this "http://host/list"
    empty tt = (Resolved (JObj [("message", JStr "Invalid JSON response.")]), tt).
Proof.
  intros this.
  destruct (body_of_ok_response unit (Doubles.answering Doubles.broken_json_200) this
              "list" "http://host/list" empty tt tt Doubles.broken_json_200 eq_refl)
    as [Hrequest Hfetch].
  exact (conj eq_refl (conj (Hrequest eq_refl) (Hfetch eq_refl))).
Defined.

(** C7 (as stated) fails for both classes: the first fails the call on a
    JSON body that does not decode, the second answers a plain-text body
    with the sentinel. *)
Lemma body_decoding_fails :
  ~ Stated.body_decoding (fun St => @HttpClient.get St) /\
  ~ Stated.body_decoding (fun St => @HttpClient2.get St).
Proof.
  split; intros H.
  - specialize (H unit (Doubles.answering Doubles.broken_json_200)
                  (mkClient "http://host/" empty) "list" empty tt tt
                  Doubles.broken_json_200 (fun _ _ => eq_refl) eq_refl).
    vm_compute in H. discriminate.
  - specialize (H unit (Doubles.answering Doubles.plain_text_200)
                  (mkClient "http://host/" empty) "motd" empty tt tt
                  Doubles.plain_text_200 (fun _ _ => eq_refl) eq_refl).
    vm_compute in H. discriminate.
Qed.

End AdapterSpec.


(* ===================================================================== *)
(** ** ApiService.getWeatherData                                          *)
(* ===================================================================== *)

Module WeatherSpec.
Import ApiService RetryFacts.

Lemma get_defined (res : JsVal) (k : string) :
  res <> JNull -> res <> JUndefined -> get res k = Resolved (get_opt res k).
Proof. intros Hn Hu. destruct res; try reflexivity; congruence. Qed.

(** The transform of [getWeatherData] on a body that is an object or a
    primitive, and on [null] and [undefined]. *)
Lemma weather_items_defined (res : JsVal) :
  res <> JNull -> res <> JUndefined ->
  weather_items res =
  Returns (Resolved (if truthy (Stated.item_path res)
                     then Stated.item_path res else JArr [])).
Proof.
  intros Hn Hu. unfold weather_items. rewrite (get_defined res "response" Hn Hu).
  reflexivity.
Qed.

(** C10 (as amended): with the default configuration, when the client
    resolves with a body [res] other than [null] and [undefined],
    [getWeatherData] resolves on that first invocation, with [[]] when
    [res.response?.body?.items?.item] is falsy (in particular when the path
    is missing at some level) and with that item otherwise (in particular
    when it is a list).  On a body that is [null] or [undefined] the read
    of [res.response] throws inside the [try] block and the attempt is
    retried after 1000 ms like a failed one: a second body other than
    [null] and [undefined] is treated as above, and on a second [null] or
    [undefined] the call rejects with the enhanced failure that has the
    weather message and the TypeError as cause. *)
Theorem getWeatherData_items_or_empty :
  forall (St : Type)
         (get : Fetch.Client -> string -> Fetch.Options -> St -> Settled JsVal * St)
         (this : Service) (params : list (string * string)) (s0 s1 s2 : St)
         (res res' : JsVal),
    let asked := Fetch.mkOptions None None None (Some params) in
    let items := fun r : JsVal =>
      if truthy (Stated.item_path r) then Stated.item_path r else JArr [] in
    let run := getWeatherData get this params no_call_options (mkWorld s0 []) in
    get (client this) "getWthrDataList" asked s0 = (Resolved res, s1) ->
    (res <> JNull -> res <> JUndefined ->
     run = (Resolved (items res), mkWorld s1 [Invoke]) /\
     (Stated.item_path res = JUndefined -> fst run = Resolved (JArr [])) /\
     (forall l, Stated.item_path res = JArr l -> fst run = Resolved (JArr l))) /\
    (res = JNull \/ res = JUndefined ->
     get (client this) "getWthrDataList" asked s1 = (Resolved res', s2) ->
     snd run = mkWorld s2 [Invoke; Sleep 1000; Invoke] /\
     (res' <> JNull -> res' <> JUndefined -> fst run = Resolved (items res')) /\
     (res' = JNull ->
      fst run =
      Rejected (Enhanced "기상 데이터 조회에 실패했습니다."
                  (Error "Cannot read properties of null (reading 'response')"))) /\
     (res' = JUndefined ->
      fst run =
      Rejected (Enhanced "기상 데이터 조회에 실패했습니다."
                  (Error "Cannot read properties of undefined (reading 'response')")))).
Proof.
  intros St get this params s0 s1 s2 res res' asked items run Hget.
  set (requestFn := get (client this) "getWthrDataList" asked) in *.
  assert (run = request requestFn weather_defaults (mkWorld s0 [])) as Hrun0
      by reflexivity.
  split.
  - intros Hn Hu.
    assert (run = (Resolved (items res), mkWorld s1 [Invoke])) as Hrun.
    { rewrite Hrun0.
      rewrite (request_returns requestFn weather_defaults s0 0 (Resolved (items res))).
      - simpl. rewrite Hget. reflexivity.
      - simpl. lia.
      - intros i Hi. lia.
      - unfold outcome, attempt. simpl. rewrite Hget. simpl.
        apply (weather_items_defined res Hn Hu). }
    rewrite Hrun. simpl. split; [reflexivity |]. split.
    + intros E. unfold items. rewrite E. reflexivity.
    + intros l E. unfold items. rewrite E. reflexivity.
  - intros Hnull Hget'.
    assert (exists e0,
              outcome requestFn weather_items None 0 s0 = Throws e0) as Hfirst.
    { unfold outcome, attempt. simpl. rewrite Hget. simpl.
      destruct Hnull as [-> | ->]; eexists; reflexivity. }
    assert (state_before requestFn weather_items None 1 s0 = s1) as Hs1.
    { simpl. unfold attempt. rewrite Hget. simpl.
      destruct (weather_items res); reflexivity. }
    assert (thunk_state requestFn 2 s0 = s2) as Hs2.
    { simpl. rewrite Hget. simpl. rewrite Hget'. reflexivity. }
    assert (outcome requestFn weather_items None 1 s0 = weather_items res') as Hsecond.
    { unfold outcome. rewrite Hs1. unfold attempt. rewrite Hget'. reflexivity. }
    assert (forall p, weather_items res' = Returns p ->
                      run = (p, mkWorld s2 [Invoke; Sleep 1000; Invoke])) as Hret.
    { intros p Hp. rewrite Hrun0.
      rewrite (request_returns requestFn weather_defaults s0 1 p).
      - rewrite Hs2. reflexivity.
      - simpl. lia.
      - intros i Hi. assert (i = 0%nat) as -> by lia. exact Hfirst.
      - change (outcome requestFn weather_items None 1 s0 = Returns p).
        rewrite Hsecond. exact Hp. }
    assert (forall e, weather_items res' = Throws e ->
                      run = (final_failure "기상 데이터 조회에 실패했습니다." e,
                             mkWorld s2 [Invoke; Sleep 1000; Invoke])) as Hthrow.
    { intros e He. rewrite Hrun0.
      rewrite (request_exhausted requestFn weather_defaults s0 e).
      - rewrite <- Hs2. reflexivity.
      - intros i Hi. assert (i = 0%nat) as -> by (simpl in Hi; lia). exact Hfirst.
      - change (outcome requestFn weather_items None 1 s0 = Throws e).
        rewrite Hsecond. exact He. }
    assert (res' <> JNull -> res' <> JUndefined ->
            run = (Resolved (items res'), mkWorld s2 [Invoke; Sleep 1000; Invoke])) as Hfine.
    { intros Hn Hu. apply Hret. apply (weather_items_defined res' Hn Hu). }
    destruct res';
      first [ rewrite (Hthrow _ eq_refl) | rewrite Hfine by discriminate ];
      simpl; repeat split; congruence.
Qed.

Lemma getWeatherData_items_or_empty_witness :
  let this := new "http://apis.data.go.kr/1360000/AsosDalyInfoService/"
                  (Fetch.mkOptions None (Some ∅) None None) in
  let run := fun get => getWeatherData get this Doubles.weather_params no_call_options
                          (mkWorld 0%nat []) in
  run (Doubles.serving Doubles.weather_body) =
    (Resolved (JArr [Doubles.seoul]), mkWorld 1%nat [Invoke]) /\
  run (Doubles.serving Doubles.no_items_body) =
    (Resolved (JArr []), mkWorld 1%nat [Invoke]) /\
  run (Doubles.serving_then JNull Doubles.weather_body) =
    (Resolved (JArr [Doubles.seoul]), mkWorld 2%nat [Invoke; Sleep 1000; Invoke]) /\
  run (Doubles.serving JNull) =
    (Rejected (Enhanced "기상 데이터 조회에 실패했습니다."
                 (Error "Cannot read properties of null (reading 'response')")),
     mkWorld 2%nat [Invoke; Sleep 1000; Invoke]).
Proof.
  intros this run.
  destruct (getWeatherData_items_or_empty nat (Doubles.serving Doubles.weather_body) this
              Doubles.weather_params 0%nat 1%nat 2%nat Doubles.weather_body JNull eq_refl)
    as [Hpresent _].
  destruct Hpresent as [H1 _]; [discriminate | discriminate |].
  destruct (getWeatherData_items_or_empty nat (Doubles.serving Doubles.no_items_body) this
              Doubles.weather_params 0%nat 1%nat 2%nat Doubles.no_items_body JNull eq_refl)
    as [Habsent _].
  destruct Habsent as [H2 _]; [discriminate | discriminate |].
  destruct (getWeatherData_items_or_empty nat
              (Doubles.serving_then JNull Doubles.weather_body) this
              Doubles.weather_params 0%nat 1%nat 2%nat JNull Doubles.weather_body eq_refl)
    as [_ Hretry].
  destruct (Hretry (or_introl eq_refl) eq_refl) as [Hw3 [H3 _]].
  destruct (getWeatherData_items_or_empty nat (Doubles.serving JNull) this
              Doubles.weather_params 0%nat 1%nat 2%nat JNull JNull eq_refl)
    as [_ Hnull].
  destruct (Hnull (or_introl eq_refl) eq_refl) as [Hw4 [_ [H4 _]]].
  split; [exact H1 |]. split; [exact H2 |]. split.
  - apply injective_projections; [apply H3; discriminate | exact Hw3].
  - apply injective_projections; [exact (H4 eq_refl) | exact Hw4].
Defined.

(** C10 (as stated) fails: a body that is [null] has no such path, and
    reading [res.response] throws inside the [try] block, so the attempt
    counts as failed and the call ends in the enhanced failure. *)
Lemma items_or_empty_fails_on_null :
  ~ Stated.items_or_empty.
Proof.
  intros H.
  specialize (H nat (Doubles.serving JNull) (new "http://host/" Fetch.empty)
                Doubles.weather_params 0%nat 1%nat JNull eq_refl).
  vm_compute in H. discriminate.
Qed.

End WeatherSpec.

(* ===================================================================== *)
(** ** ApiService.request: the shape of every run                         *)
(* ===================================================================== *)

Module RunSpec.
Import ApiService RetryFacts.


(** X2: when [transformResponse] returns no promise that rejects,
    [request] rejects only once the whole budget is spent, and then as the
    [catch] gives up on the failure of the last attempt: with the enhanced
    failure that wraps it when it is not [undefined] or [null], and with
    the TypeError of reading [err.status] when it is. *)
Theorem request_rejects_enhanced :
  forall (St : Type) (requestFn : St -> Settled JsVal * St)
         (options : RequestOptions) (s0 : St) (x : Thrown),
    let transform :=
      or_default (transformResponse options) (fun d => Returns (Resolved d)) in
    let N := Z.to_nat (or_default (retries options) 1%Z) in
    let fallback := or_default (errorMessage options) "API request failed." in
    let run := request requestFn options (mkWorld s0 []) in
    (forall res e, transform res <> Returns (Rejected e)) ->
    fst run = Rejected x ->
    attempts_made run = S N /\
    exists e,
      outcome requestFn transform (validateStatus options) N s0 = Throws e /\
      (nullish e = false -> x = Enhanced (final_message fallback e) e) /\
      (e = Raw PUndefined ->
       x = Error "Cannot read properties of undefined (reading 'status')") /\
      (e = Raw PNull ->
       x = Error "Cannot read properties of null (reading 'status')").
Proof.
  intros St requestFn options s0 x transform N fallback run Hsync Hrej.
  destruct (request_run requestFn options s0) as [k [Hk [_ [Hstop Hrun]]]].
  fold transform N fallback in Hk, Hstop, Hrun.
  unfold run in *. rewrite Hrun in *. simpl in Hrej.
  assert (forall j p, outcome requestFn transform (validateStatus options) j s0 = Returns p ->
                      exists v, p = Resolved v) as Hvalue.
  { intros j p. unfold outcome, attempt.
    destruct (requestFn _) as [[res | e] s']; simpl; [| discriminate].
    destruct (validation_fails (validateStatus options) res); simpl; [discriminate |].
    intros Hp. destruct p as [v | e]; [eauto |]. exfalso. exact (Hsync res e Hp). }
  assert (exists e, outcome requestFn transform (validateStatus options) k s0 = Throws e)
    as [e He].
  { destruct (outcome requestFn transform (validateStatus options) k s0) as [p | e] eqn:E;
      [| eauto].
    destruct (Hvalue k p E) as [v ->]. simpl in Hrej. discriminate. }
  assert (k = N) as ->.
  { destruct (Nat.eq_dec k N) as [-> | Hne]; [reflexivity |].
    destruct Hstop as [p Hp]; [lia |]. congruence. }
  unfold attempts_made. simpl. rewrite invocations_retry_trace. split; [reflexivity |].
  exists e. split; [exact He |].
  rewrite He in Hrej. cbn [settle] in Hrej. split; [| split].
  - intros Hn. rewrite (final_failure_enhanced fallback e Hn) in Hrej. congruence.
  - intros ->. cbn in Hrej. congruence.
  - intros ->. cbn in Hrej. congruence.
Qed.

(** What [request] resolves with is how one of the attempts ended. *)
Lemma resolved_is_an_outcome {St} (requestFn : St -> Settled JsVal * St)
    (options : RequestOptions) (s0 : St) (v : JsVal) :
  fst (request requestFn options (mkWorld s0 [])) = Resolved v ->
  exists j,
    outcome requestFn
            (or_default (transformResponse options) (fun d => Returns (Resolved d)))
            (validateStatus options) j s0 = Returns (Resolved v).
Proof.
  intros Hres.
  destruct (request_run requestFn options s0) as [k [_ [_ [_ Hrun]]]].
  rewrite Hrun in Hres. simpl in Hres. exists k.
  destruct (outcome _ _ _ k s0) as [p | e]; simpl in Hres; [congruence |].
  destruct (RequestSpec.final_failure_rejected (or_default (errorMessage options) "API request failed.") e)
    as [x Hx].
  congruence.
Qed.

(** X3: when [request] resolves, the value is what the last attempt
    produced, every attempt before it failed, and the thunk was not invoked
    again after it. *)
Theorem request_resolves_first_success :
  forall (St : Type) (requestFn : St -> Settled JsVal * St)
         (options : RequestOptions) (s0 : St) (v : JsVal),
    let transform :=
      or_default (transformResponse options) (fun d => Returns (Resolved d)) in
    let run := request requestFn options (mkWorld s0 []) in
    fst run = Resolved v ->
    exists j,
      (j <= Z.to_nat (or_default (retries options) 1%Z))%nat /\
      attempts_made run = S j /\
      outcome requestFn transform (validateStatus options) j s0 = Returns (Resolved v) /\
      (forall i, (i < j)%nat ->
         exists e, outcome requestFn transform (validateStatus options) i s0 = Throws e) /\
      w_state (snd run) =
        state_before requestFn transform (validateStatus options) (S j) s0.
Proof.
  intros St requestFn options s0 v transform run Hres.
  destruct (request_run requestFn options s0) as [k [Hk [Hfail [_ Hrun]]]].
  fold transform in Hk, Hfail, Hrun.
  unfold run in *. rewrite Hrun in *. simpl in Hres.
  exists k. split; [exact Hk |].
  unfold attempts_made. cbn [snd w_trace w_state]. rewrite invocations_retry_trace.
  split; [reflexivity |].
  split; [| split; [exact Hfail | symmetry;
                    apply (state_before_thunk_state requestFn transform
                             (validateStatus options))]].
  destruct (outcome requestFn transform (validateStatus options) k s0) as [p | e];
    simpl in Hres; [congruence |].
  destruct (RequestSpec.final_failure_rejected (or_default (errorMessage options) "API request failed.") e)
    as [x Hx].
  congruence.
Qed.



(** X20: a [transformResponse] that returns a promise which rejects is not
    caught, because the [try] block returns its value without awaiting it:
    the call rejects with that rejection as it is, after the one
    invocation, without a wait or a retry, whatever the retries are. *)
Theorem rejecting_promise_escapes :
  forall (St : Type) (requestFn : St -> Settled JsVal * St)
         (options : RequestOptions) (s0 s1 : St) (res : JsVal) (e : Thrown)
         (transform : JsVal -> Completion),
    transformResponse options = Some transform ->
    requestFn s0 = (Resolved res, s1) ->
    lets_through (validateStatus options) res ->
    transform res = Returns (Rejected e) ->
    request requestFn options (mkWorld s0 []) = (Rejected e, mkWorld s1 [Invoke]).
Proof.
  intros St requestFn options s0 s1 res e transform Ht Hcall Hok Hp.
  rewrite (request_returns requestFn options s0 0 (Rejected e)).
  - simpl. rewrite Hcall. reflexivity.
  - lia.
  - intros i Hi. lia.
  - rewrite Ht. unfold outcome, attempt. simpl. rewrite Hcall. rewrite Hok. exact Hp.
Qed.

Lemma rejecting_promise_escapes_witness :
  request (Doubles.steady (JStr "ok"))
          (mkOptions (Some 5) None None (Some Doubles.rejecting) None) (mkWorld 0%nat []) =
  (Rejected (Error "unexpected shape"), mkWorld 1%nat [Invoke]).
Proof.
  exact (rejecting_promise_escapes nat (Doubles.steady (JStr "ok"))
           (mkOptions (Some 5) None None (Some Doubles.rejecting) None) 0%nat 1%nat
           (JStr "ok") (Error "unexpected shape") Doubles.rejecting
           eq_refl eq_refl eq_refl eq_refl).
Defined.

Lemma request_rejects_enhanced_witness :
  let options := mkOptions (Some 1) None None None None in
  let run := request (Doubles.broken Doubles.teapot) options (mkWorld 0%nat []) in
  let bare := request (Doubles.broken Doubles.nothing) options (mkWorld 0%nat []) in
  fst run = Rejected (Enhanced "API request failed." Doubles.teapot) /\
  attempts_made run = 2%nat /\
  fst bare = Rejected (Error "Cannot read properties of undefined (reading 'status')") /\
  attempts_made bare = 2%nat.
Proof.
  intros options run bare.
  assert (forall (res : JsVal) (e : Thrown),
            (fun d : JsVal => Returns (Resolved d)) res <> Returns (Rejected e)) as Hsync
      by (intros res e; discriminate).
  destruct (request_rejects_enhanced nat (Doubles.broken Doubles.teapot) options 0%nat
              (Enhanced "API request failed." Doubles.teapot) Hsync eq_refl)
    as [Hn _].
  destruct (request_rejects_enhanced nat (Doubles.broken Doubles.nothing) options 0%nat
              (Error "Cannot read properties of undefined (reading 'status')") Hsync
              eq_refl) as [Hn' _].
  exact (conj eq_refl (conj Hn (conj eq_refl Hn'))).
Defined.

Lemma request_resolves_first_success_witness :
  let options := mkOptions (Some 2) None None None None in
  let requestFn := Doubles.flaky 1 Doubles.teapot (JStr "ok") in
  let run := request requestFn options (mkWorld 0%nat []) in
  fst run = Resolved (JStr "ok") /\
  exists j,
    (j <= 2)%nat /\
    attempts_made run = S j /\
    outcome requestFn (fun d => Returns (Resolved d)) None j 0%nat =
      Returns (Resolved (JStr "ok")) /\
    (forall i, (i < j)%nat ->
       exists e, outcome requestFn (fun d => Returns (Resolved d)) None i 0%nat = Throws e) /\
    w_state (snd run) =
      state_before requestFn (fun d => Returns (Resolved d)) None (S j) 0%nat.
Proof.
  intros options requestFn run.
  exact (conj eq_refl
           (request_resolves_first_success nat requestFn options 0%nat (JStr "ok")
              eq_refl)).
Defined.



End RunSpec.

(* ===================================================================== *)
(** ** ApiService.getWeatherData: messages and values                     *)
(* ===================================================================== *)

Module WeatherRunSpec.
Import ApiService RetryFacts.

Lemma weather_items_truthy (res : JsVal) (p : Settled JsVal) :
  weather_items res = Returns p -> exists v, p = Resolved v /\ truthy v = true.
Proof.
  unfold weather_items. destruct (get res "response") as [response | e]; [| discriminate].
  intros H. inversion H as [Hp]. clear H Hp. eexists. split; [reflexivity |].
  destruct (truthy (get_opt (get_opt (get_opt response "body") "items") "item")) eqn:E;
    [exact E | reflexivity].
Qed.

(** What an attempt's [try] block returns came out of the transform. *)
Lemma attempt_returned_transformed {St} (requestFn : St -> Settled JsVal * St)
    transform validate (s : St) (p : Settled JsVal) :
  fst (attempt requestFn transform validate s) = Returns p ->
  exists res, transform res = Returns p.
Proof.
  unfold attempt. destruct (requestFn s) as [[res | e] s']; simpl; [| discriminate].
  destruct (validation_fails validate res); simpl; [discriminate | eauto].
Qed.

(** X6: when the options of the call have no [transformResponse] property,
    so that the transform of [getWeatherData] is the one in place, what
    [getWeatherData] resolves with is never falsy: it is the item (a
    non-empty string, a non-zero number, an object, a list) or the empty
    list, never [undefined], [null], [0] or the empty string. *)
Theorem getWeatherData_never_falsy :
  forall (St : Type)
         (get : Fetch.Client -> string -> Fetch.Options -> St -> Settled JsVal * St)
         (this : Service) (params : list (string * string))
         (options : CallOptions) (s0 : St) (v : JsVal),
    own_transformResponse options = Absent ->
    fst (getWeatherData get this params options (mkWorld s0 [])) = Resolved v ->
    truthy v = true.
Proof.
  intros St get this params options s0 v Ht Hres.
  unfold getWeatherData in Hres.
  destruct (RunSpec.resolved_is_an_outcome
              (get (client this) "getWthrDataList"
                   (Fetch.mkOptions None None None (Some params)))
              (spread (mkOptions None None (Some "기상 데이터 조회에 실패했습니다.")
                                 (Some weather_items) None) options)
              s0 v Hres) as [j Hj].
  simpl in Hj. rewrite Ht in Hj. simpl in Hj.
  destruct (attempt_returned_transformed _ _ _ _ _ Hj) as [res Hw].
  destruct (weather_items_truthy res _ Hw) as [v' [Hv Htruthy]].
  inversion Hv. subst v'. exact Htruthy.
Qed.

Lemma getWeatherData_never_falsy_witness :
  let this := new "http://host/" Fetch.empty in
  let options := mkCall (Own (Some 0)) Absent (Own None) Absent Absent in
  let run := getWeatherData (Doubles.serving Doubles.weather_body) this
               Doubles.weather_params options (mkWorld 0%nat []) in
  fst run = Resolved (JArr [Doubles.seoul]) /\ truthy (JArr [Doubles.seoul]) = true.
Proof.
  intros this options run.
  exact (conj eq_refl
           (getWeatherData_never_falsy nat (Doubles.serving Doubles.weather_body) this
              Doubles.weather_params options 0%nat (JArr [Doubles.seoul])
              eq_refl eq_refl)).
Defined.

(** X7: when every call of the client fails with an error object that has
    no status (the network is down, say), [getWeatherData] rejects with
    the enhanced failure whose message depends on the [errorMessage]
    property of the options of the call: when there is none, the weather
    message of the service; when it holds a string, that string; when it
    is there and holds [undefined], the default of [request],
    'API request failed.'. *)
Theorem getWeatherData_failure_message :
  forall (St : Type)
         (get : Fetch.Client -> string -> Fetch.Options -> St -> Settled JsVal * St)
         (this : Service) (params : list (string * string))
         (options : CallOptions) (s0 : St),
    (forall s, exists e,
        fst (get (client this) "getWthrDataList"
                 (Fetch.mkOptions None None None (Some params)) s) = Rejected e /\
        err_status e = None /\ nullish e = false) ->
    exists e,
      err_status e = None /\
      nullish e = false /\
      fst (getWeatherData get this params options (mkWorld s0 [])) =
      Rejected (Enhanced
                  (match own_errorMessage options with
                   | Absent => "기상 데이터 조회에 실패했습니다."
                   | Own (Some message) => message
                   | Own None => "API request failed."
                   end) e).
Proof.
  intros St get this params options s0 Hdown.
  set (requestFn := get (client this) "getWthrDataList"
                        (Fetch.mkOptions None None None (Some params))) in *.
  set (merged := spread (mkOptions None None (Some "기상 데이터 조회에 실패했습니다.")
                                   (Some weather_items) None) options).
  assert (always_fails requestFn) as Hfail.
  { intros s. destruct (Hdown s) as [e [He _]]. eauto. }
  set (transform := or_default (transformResponse merged) (fun d => Returns (Resolved d))).
  set (N := Z.to_nat (or_default (retries merged) 1)).
  destruct (always_fails_outcome requestFn transform (validateStatus merged) N s0 Hfail)
    as [e [Hout Hcall]].
  assert (err_status e = None /\ nullish e = false) as [Hstatus Hn].
  { destruct (Hdown (thunk_state requestFn N s0)) as [e' [He' Hs']].
    rewrite Hcall in He'. inversion He'. subst e'. exact Hs'. }
  exists e. split; [exact Hstatus |]. split; [exact Hn |].
  unfold getWeatherData. fold requestFn merged.
  rewrite (request_exhausted requestFn merged s0 e).
  - cbn [fst]. rewrite (final_failure_enhanced _ e Hn).
    rewrite (RequestSpec.final_message_no_status _ e Hstatus).
    unfold merged. simpl. destruct (own_errorMessage options) as [| [message |]];
      reflexivity.
  - intros j _.
    destruct (always_fails_outcome requestFn transform (validateStatus merged) j s0 Hfail)
      as [e' [He' _]].
    eauto.
  - exact Hout.
Qed.

Lemma getWeatherData_failure_message_witness :
  let this := new "http://host/" Fetch.empty in
  let down := Doubles.unreachable (Error "Failed to fetch") in
  let run := fun options =>
    fst (getWeatherData down this Doubles.weather_params options (mkWorld 0%nat [])) in
  (exists e, err_status e = None /\ nullish e = false /\
     run no_call_options = Rejected (Enhanced "기상 데이터 조회에 실패했습니다." e)) /\
  (exists e, err_status e = None /\ nullish e = false /\
     run (mkCall Absent Absent (Own None) Absent Absent) =
     Rejected (Enhanced "API request failed." e)).
Proof.
  intros this down run.
  assert (forall s, exists e,
            fst (down (client this) "getWthrDataList"
                      (Fetch.mkOptions None None None (Some Doubles.weather_params)) s)
            = Rejected e /\ err_status e = None /\ nullish e = false) as Hdown.
  { intros s. exists (Error "Failed to fetch"). repeat split. }
  split.
  - exact (getWeatherData_failure_message nat down this Doubles.weather_params
             no_call_options 0%nat Hdown).
  - exact (getWeatherData_failure_message nat down this Doubles.weather_params
             (mkCall Absent Absent (Own None) Absent Absent) 0%nat Hdown).
Defined.

End WeatherRunSpec.

(* ===================================================================== *)
(** ** HttpClient.js: methods, options, URLs and outcomes                 *)
(* ===================================================================== *)

Module ClientSpec.
Import Fetch.

(** The one call [request] makes, after the calls already made. *)
Lemma request_call (answer : Settled Response) (this : Client) (endpoint : string)
    (options : Options) (calls : list (string * Options)) :
  snd (HttpClient.request (Doubles.recording answer) this endpoint options calls) =
  (calls ++ [(HttpClient.buildUrl this endpoint, spread (defaultOptions this) options)])%list.
Proof.
  unfold HttpClient.request, Doubles.recording.
  destruct answer as [r | e]; simpl; [| reflexivity].
  destruct (negb (ok r)); [reflexivity |].
  destruct (content_type r) as [ct |]; [| reflexivity].
  destruct (negb (String.eqb ct "") && includes ct "application/json"); reflexivity.
Qed.


(** X9: [post] and [put] ask [fetch] for a POST and a PUT with the
    serialized data as body.  The headers sent are the per-call headers
    plus Content-Type: the per-call Content-Type when there is one,
    application/json otherwise; a default header of the client is sent only
    if the call repeats it. *)
Theorem post_and_put_options :
  forall (stringify : JsVal -> option string) (answer : Settled Response)
         (this : Client) (endpoint : string) (data : JsVal) (options : Options)
         (serialized : string),
    stringify data = Some serialized ->
    exists sent_post sent_put h,
      snd (HttpClient.post (Doubles.recording answer) stringify this endpoint data
             options []) = [(HttpClient.buildUrl this endpoint, sent_post)] /\
      snd (HttpClient.put (Doubles.recording answer) stringify this endpoint data
             options []) = [(HttpClient.buildUrl this endpoint, sent_put)] /\
      method sent_post = Some "POST" /\
      method sent_put = Some "PUT" /\
      body sent_post = Some serialized /\
      body sent_put = Some serialized /\
      headers sent_post = Some h /\
      headers sent_put = Some h /\
      h !! "Content-Type" =
        Some (match spread_headers (headers options) !! "Content-Type" with
              | Some given => given
              | None => "application/json"
              end) /\
      (forall k, k <> "Content-Type" -> h !! k = spread_headers (headers options) !! k).
Proof.
  intros stringify answer this endpoint data options serialized Hs.
  exists (spread (defaultOptions this)
            (mkOptions (Some "POST") (Some (HttpClient.json_headers options))
                       (stringify data) (params options))),
         (spread (defaultOptions this)
            (mkOptions (Some "PUT") (Some (HttpClient.json_headers options))
                       (stringify data) (params options))),
         (HttpClient.json_headers options).
  unfold HttpClient.post, HttpClient.put. rewrite !request_call. simpl.
  rewrite Hs. simpl.
  repeat (split; [reflexivity |]).
  unfold HttpClient.json_headers. split.
  - destruct (spread_headers (headers options) !! "Content-Type") as [given |] eqn:E.
    + apply lookup_union_Some_l. exact E.
    + rewrite lookup_union_r by exact E. apply lookup_singleton_eq.
  - intros k Hk. apply lookup_union_l. apply lookup_singleton_ne. congruence.
Qed.

Lemma post_and_put_options_witness :
  let stringify := fun _ : JsVal => Some "{}" in
  let this := mkClient "http://host/" (mkOptions None (Some {[ "Authorization" := "k" ]})
                                                 None None) in
  exists sent_post sent_put h,
    snd (HttpClient.post (Doubles.recording (Rejected (Error "offline"))) stringify this
           "items" (JObj []) empty []) = [("http://host/items", sent_post)] /\
    snd (HttpClient.put (Doubles.recording (Rejected (Error "offline"))) stringify this
           "items" (JObj []) empty []) = [("http://host/items", sent_put)] /\
    method sent_post = Some "POST" /\
    method sent_put = Some "PUT" /\
    body sent_post = Some "{}" /\
    body sent_put = Some "{}" /\
    headers sent_post = Some h /\
    headers sent_put = Some h /\
    h !! "Content-Type" = Some "application/json" /\
    (forall k, k <> "Content-Type" -> h !! k = (∅ : gmap string string) !! k).
Proof.
  intros stringify this.
  exact (post_and_put_options stringify (Rejected (Error "offline")) this "items"
           (JObj []) empty "{}" eq_refl).
Defined.

Lemma prefix_app (p a b : string) :
  String.prefix p a = true -> String.prefix p (a ++ b) = true.
Proof.
  revert a. induction p as [| c p IH]; intros a H; [destruct (a ++ b); reflexivity |].
  destruct a as [| c' a]; simpl in *; [discriminate |].
  destruct (Ascii.ascii_dec c c'); [apply IH; exact H | discriminate].
Qed.

(** X10: with a base URL that starts with [http], every URL [buildUrl]
    builds starts with [http], and building again from a built URL changes
    nothing. *)
Theorem buildUrl_idempotent :
  forall (this : Client) (endpoint : string),
    String.prefix "http" (baseUrl this) = true ->
    String.prefix "http" (HttpClient.buildUrl this endpoint) = true /\
    HttpClient.buildUrl this (HttpClient.buildUrl this endpoint) =
    HttpClient.buildUrl this endpoint.
Proof.
  intros this endpoint Hbase.
  assert (String.prefix "http" (HttpClient.buildUrl this endpoint) = true) as Hbuilt.
  { unfold HttpClient.buildUrl.
    destruct (String.prefix "http" endpoint) eqn:E; [exact E |].
    apply prefix_app. exact Hbase. }
  split; [exact Hbuilt |].
  unfold HttpClient.buildUrl at 1. rewrite Hbuilt. reflexivity.
Qed.

Lemma buildUrl_idempotent_witness :
  let this := mkClient "http://apis.data.go.kr/1360000/AsosDalyInfoService/" empty in
  String.prefix "http" (HttpClient.buildUrl this "getWthrDataList") = true /\
  HttpClient.buildUrl this (HttpClient.buildUrl this "getWthrDataList") =
  HttpClient.buildUrl this "getWthrDataList".
Proof.
  intros this. exact (buildUrl_idempotent this "getWthrDataList" eq_refl).
Defined.

(** X11: given the response [fetch] resolves with, [request] resolves
    exactly when the response is ok and, if its content type includes
    application/json, its body decodes; it never resolves on a response that
    is not ok, and a plain-text body never fails it. *)
Theorem request_resolves_iff :
  forall (St : Type) (fetch : string -> Options -> St -> Settled Response * St)
         (this : Client) (endpoint : string) (options : Options)
         (s s' : St) (r : Response),
    fetch (HttpClient.buildUrl this endpoint) (spread (defaultOptions this) options) s
      = (Resolved r, s') ->
    snd (HttpClient.request fetch this endpoint options s) = s' /\
    ((exists v, fst (HttpClient.request fetch this endpoint options s) = Resolved v) <->
     ok r = true /\
     (Stated.indicates_json r = true -> exists d, json r = Resolved d)).
Proof.
  intros St fetch this endpoint options s s' r Hcall.
  destruct (ok r) eqn:Hok.
  - assert (HttpClient.request fetch this endpoint options s =
            (if Stated.indicates_json r then json r else Resolved (JStr (text r)), s'))
      as Hrun.
    { unfold HttpClient.request, Stated.indicates_json. rewrite Hcall, Hok. simpl.
      destruct (content_type r) as [ct |]; [| reflexivity].
      destruct (String.eqb_spec ct "") as [-> | Hne]; simpl; [reflexivity |].
      destruct (includes ct "application/json"); reflexivity. }
    rewrite Hrun. simpl. split; [reflexivity |].
    destruct (Stated.indicates_json r); simpl.
    + split.
      * intros [v Hv]. split; [reflexivity |]. intros _. eauto.
      * intros [_ Hd]. destruct (Hd eq_refl) as [d Hjson]. eauto.
    + split; [intros _; split; [reflexivity | discriminate] | eauto].
  - unfold HttpClient.request. rewrite Hcall, Hok. simpl. split; [reflexivity |].
    split; [intros [v Hv]; discriminate | intros [Hf _]; discriminate].
Qed.

Lemma request_resolves_iff_witness :
  let this := mkClient "http://host/" empty in
  let fetch := Doubles.answering Doubles.plain_text_200 in
  snd (HttpClient.request fetch this "motd" empty tt) = tt /\
  ((exists v, fst (HttpClient.request fetch this "motd" empty tt) = Resolved v) <->
   ok Doubles.plain_text_200 = true /\
   (Stated.indicates_json Doubles.plain_text_200 = true ->
    exists d, json Doubles.plain_text_200 = Resolved d)).
Proof.
  intros this fetch.
  exact (request_resolves_iff unit fetch this "motd" empty tt tt Doubles.plain_text_200
           eq_refl).
Defined.

End ClientSpec.

(* ===================================================================== *)
(** ** The second [HttpClient] class: methods, URLs, headers and outcomes *)
(* ===================================================================== *)

Module Client2Spec.
Import Fetch.

(** The one call [_fetch] makes, after the calls already made. *)
Lemma _fetch_call_after (answer : Settled Response) (this : Client) (url : string)
    (options : Options) (calls : list (string * Options)) :
  snd (HttpClient2._fetch (Doubles.recording answer) this url options calls) =
  (calls ++ [(url, HttpClient2.finalOptions this options)])%list.
Proof.
  unfold HttpClient2._fetch, Doubles.recording.
  destruct answer as [r | e]; simpl; [| reflexivity].
  destruct (negb (ok r)); [| reflexivity].
  destruct (Js.get (HttpClient2.read_json r) "message"); reflexivity.
Qed.

(** X12: [get] of the second class asks [fetch] for a GET only when the
    per-call options name no method: a method in the options replaces it
    ([...options] comes after [method: 'GET']); a method in the client's
    defaults is never used. *)
Theorem get_method_can_be_overridden :
  forall (answer : Settled Response) (this : Client) (endpoint : string)
         (options : Options),
    exists sent,
      snd (HttpClient2.get (Doubles.recording answer) this endpoint options []) =
        [(HttpClient2._buildUrl this endpoint (params options), sent)] /\
      method sent = Some (match method options with
                          | Some given => given
                          | None => "GET"
                          end) /\
      body sent = body options /\
      params sent = params options.
Proof.
  intros answer this endpoint options.
  exists (HttpClient2.finalOptions this
            (spread (mkOptions (Some "GET") None None None) options)).
  unfold HttpClient2.get. rewrite _fetch_call_after. simpl.
  split; [reflexivity |].
  destruct (method options), (body options), (params options); repeat split.
Qed.

Lemma append_empty_l (a b : string) : a ++ b = "" -> a = "".
Proof. destruct a; [reflexivity | discriminate]. Qed.

Lemma append_empty_r (a : string) : a ++ "" = a.
Proof.
  induction a as [| c a IH]; [reflexivity |].
  change (String c (a ++ "") = String c a). rewrite IH. reflexivity.
Qed.

Lemma append_cancel_l (a x y : string) : a ++ x = a ++ y -> x = y.
Proof.
  induction a as [| c a IH]; [auto |].
  change (String c (a ++ x) = String c (a ++ y) -> x = y).
  intros H. inversion H. auto.
Qed.

Lemma join_nonempty (sep first : string) (rest : list string) :
  first <> "" -> join sep (first :: rest) <> "".
Proof.
  intros Hne H. apply Hne.
  destruct rest as [| p rest]; simpl in H; [exact H |].
  exact (append_empty_l _ _ H).
Qed.

Lemma URLSearchParams_toString_empty (p : list (string * string)) :
  URLSearchParams_toString p = "" <-> p = [].
Proof.
  split; [| intros ->; reflexivity].
  destruct p as [| [k v] rest]; [reflexivity |].
  unfold URLSearchParams_toString. intros H. exfalso.
  apply (join_nonempty "&" (form_encode k ++ "=" ++ form_encode v)
           (map (fun '(k0, v0) => form_encode k0 ++ "=" ++ form_encode v0) rest));
    [| exact H].
  intros E. destruct (form_encode k); discriminate.
Qed.

(** X13: [_buildUrl] returns the base URL followed by the endpoint, with
    nothing after it, exactly when the params are missing or empty; any
    parameter, even one with an empty name and an empty value, adds a
    query. *)
Theorem _buildUrl_without_query :
  forall (this : Client) (endpoint : string) (params : option (list (string * string))),
    HttpClient2._buildUrl this endpoint params = baseUrl this ++ endpoint <->
    params = None \/ params = Some [].
Proof.
  intros this endpoint params. unfold HttpClient2._buildUrl. split.
  - intros H. apply append_cancel_l in H.
    rewrite <- (append_empty_r endpoint) in H at 2. apply append_cancel_l in H.
    destruct params as [p |]; [| auto]. right. f_equal.
    apply URLSearchParams_toString_empty.
    destruct (String.eqb_spec (URLSearchParams_toString p) "") as [E | E];
      [exact E | simpl in H; discriminate].
  - intros [-> | ->]; simpl; rewrite append_empty_r; reflexivity.
Qed.

(** X14: given the response [fetch] resolves with, [_fetch] resolves
    exactly when the response is ok, and then with the decoded body or the
    sentinel: a body that does not decode never fails an ok response, and a
    response that is not ok never resolves. *)
Theorem _fetch_resolves_iff :
  forall (St : Type) (fetch : string -> Options -> St -> Settled Response * St)
         (this : Client) (url : string) (options : Options)
         (s s' : St) (r : Response),
    fetch url (HttpClient2.finalOptions this options) s = (Resolved r, s') ->
    snd (HttpClient2._fetch fetch this url options s) = s' /\
    (forall v, fst (HttpClient2._fetch fetch this url options s) = Resolved v <->
               ok r = true /\ v = HttpClient2.read_json r).
Proof.
  intros St fetch this url options s s' r Hcall.
  unfold HttpClient2._fetch. rewrite Hcall.
  destruct (ok r); simpl.
  - split; [reflexivity |]. intros v. split.
    + intros H. inversion H. auto.
    + intros [_ ->]. reflexivity.
  - destruct (Js.get (HttpClient2.read_json r) "message"); simpl;
      (split; [reflexivity |]); intros v; split;
      try (intros H; discriminate); intros [H _]; discriminate.
Qed.

Lemma _fetch_resolves_iff_witness :
  let this := mkClient "http://host/" empty in
  let fetch := Doubles.answering Doubles.plain_text_200 in
  snd (HttpClient2._fetch fetch this "http://host/motd" empty tt) = tt /\
  (forall v, fst (HttpClient2._fetch fetch this "http://host/motd" empty tt) = Resolved v <->
             ok Doubles.plain_text_200 = true /\
             v = HttpClient2.read_json Doubles.plain_text_200).
Proof.
  intros this fetch.
  exact (_fetch_resolves_iff unit fetch this "http://host/motd" empty tt tt
           Doubles.plain_text_200 eq_refl).
Defined.

(** X15: on a response that is not ok, the message of the error [_fetch]
    throws is 'Invalid JSON response.' when the body does not decode,
    'HTTP error' when it decodes to an object without a [message], and the
    body's [message] when that is a non-empty string; the error always
    carries the status and the decoded body. *)
Theorem _fetch_failure_message :
  forall (St : Type) (fetch : string -> Options -> St -> Settled Response * St)
         (this : Client) (url : string) (options : Options)
         (s s' : St) (r : Response),
    fetch url (HttpClient2.finalOptions this options) s = (Resolved r, s') ->
    ok r = false ->
    (forall e, json r = Rejected e ->
       HttpClient2._fetch fetch this url options s =
       (Rejected (HttpError "Invalid JSON response." (status r) HttpClient2.invalid_json),
        s')) /\
    (forall props, json r = Resolved (JObj props) ->
       (assoc "message" props = None ->
        HttpClient2._fetch fetch this url options s =
        (Rejected (HttpError "HTTP error" (status r) (JObj props)), s')) /\
       (forall m, assoc "message" props = Some (JStr m) -> m <> "" ->
        HttpClient2._fetch fetch this url options s =
        (Rejected (HttpError m (status r) (JObj props)), s'))).
Proof.
  intros St fetch this url options s s' r Hcall Hok.
  unfold HttpClient2._fetch, HttpClient2.read_json. rewrite Hcall, Hok. simpl.
  split.
  - intros e He. rewrite He. reflexivity.
  - intros props Hp. rewrite Hp. simpl. split.
    + intros Hm. rewrite Hm. reflexivity.
    + intros m Hm Hne. rewrite Hm. unfold HttpClient2.http_error. simpl.
      destruct (String.eqb_spec m "") as [E | E]; [contradiction | reflexivity].
Qed.

Lemma _fetch_failure_message_witness :
  let this := mkClient "http://host/" empty in
  let fetch := Doubles.answering Doubles.json_404 in
  ok Doubles.json_404 = false /\
  HttpClient2._fetch fetch this "http://host/missing" empty tt =
    (Rejected (HttpError "no such station" 404
                 (JObj [("message", JStr "no such station")])), tt).
Proof.
  intros this fetch. split; [reflexivity |].
  refine (proj2 (proj2 (_fetch_failure_message unit fetch this "http://host/missing"
                          empty tt tt Doubles.json_404 eq_refl eq_refl)
                   [("message", JStr "no such station")] eq_refl)
            "no such station" eq_refl _).
  discriminate.
Defined.



End Client2Spec.

(* ===================================================================== *)
(** ** The service over the clients                                       *)
(* ===================================================================== *)

Module EndToEnd.
Import ApiService RetryFacts.

(** A thunk that adds the same call to the calls made, each time. *)
Lemma thunk_state_repeat {C} (requestFn : list C -> Settled JsVal * list C) (c : C) :
  (forall calls, snd (requestFn calls) = (calls ++ [c])%list) ->
  forall n calls, thunk_state requestFn n calls = (calls ++ repeat c n)%list.
Proof.
  intros Hcall. induction n as [| n IH]; intros calls; simpl.
  - rewrite app_nil_r. reflexivity.
  - rewrite Hcall, IH, <- app_assoc. reflexivity.
Qed.

Lemma run_calls {C} (requestFn : list C -> Settled JsVal * list C)
    (options : RequestOptions) (c : C) :
  (forall calls, snd (requestFn calls) = (calls ++ [c])%list) ->
  let run := request requestFn options (mkWorld [] []) in
  w_state (snd run) = repeat c (attempts_made run).
Proof.
  intros Hcall run.
  destruct (request_run requestFn options []) as [k [_ [_ [_ Hrun]]]].
  unfold run, attempts_made. rewrite Hrun. cbn [w_state w_trace snd].
  rewrite invocations_retry_trace.
  rewrite (thunk_state_repeat requestFn c Hcall). reflexivity.
Qed.

(** X17: [getWeatherData] calls [fetch] once per attempt and asks every
    time for the same thing.  Over the second client class that is a GET of
    the base URL followed by [getWthrDataList] and the serialized params,
    with the default headers and Accept; over the class of HttpClient.js it
    is a GET of the base URL followed by [getWthrDataList] alone: the
    params are handed to [fetch] as an option and are not part of the
    URL. *)
Theorem one_fetch_per_attempt :
  forall (answer : Settled Fetch.Response) (this : Service)
         (params : list (string * string)) (options : CallOptions),
    let asked := Fetch.mkOptions (Some "GET") None None (Some params) in
    let run2 := getWeatherData (HttpClient2.get (Doubles.recording answer)) this params
                  options (mkWorld [] []) in
    let run1 := getWeatherData (HttpClient.get (Doubles.recording answer)) this params
                  options (mkWorld [] []) in
    w_state (snd run2) =
      repeat (Fetch.baseUrl (client this) ++ "getWthrDataList" ++
              HttpClient2.query_suffix (Some params),
              HttpClient2.finalOptions (client this) asked)
             (attempts_made run2) /\
    w_state (snd run1) =
      repeat (HttpClient.buildUrl (client this) "getWthrDataList",
              Fetch.spread (Fetch.defaultOptions (client this)) asked)
             (attempts_made run1) /\
    HttpClient.buildUrl (client this) "getWthrDataList" =
      Fetch.baseUrl (client this) ++ "getWthrDataList".
Proof.
  intros answer this params options asked run2 run1. split; [| split].
  - apply run_calls. intros calls.
    unfold HttpClient2.get. rewrite Client2Spec._fetch_call_after. reflexivity.
  - apply run_calls. intros calls.
    unfold HttpClient.get. rewrite ClientSpec.request_call. reflexivity.
  - reflexivity.
Qed.

(** A thunk that always fails with the same mapped status. *)
Lemma request_mapped_status {St} (requestFn : St -> Settled JsVal * St)
    (options : RequestOptions) (s0 : St) (status : Z) (msg : string) :
  (forall fallback e, err_status e = Some status -> final_message fallback e = msg) ->
  (forall s, exists e, fst (requestFn s) = Rejected e /\ err_status e = Some status) ->
  exists e,
    err_status e = Some status /\
    fst (request requestFn options (mkWorld s0 [])) = Rejected (Enhanced msg e).
Proof.
  intros Hmsg Hdown.
  assert (always_fails requestFn) as Hfail.
  { intros s. destruct (Hdown s) as [e [He _]]. eauto. }
  set (transform := or_default (transformResponse options) (fun d => Returns (Resolved d))).
  set (N := Z.to_nat (or_default (retries options) 1)).
  destruct (always_fails_outcome requestFn transform (validateStatus options) N s0 Hfail)
    as [e [Hout Hcall]].
  assert (err_status e = Some status) as Hstatus.
  { destruct (Hdown (thunk_state requestFn N s0)) as [e' [He' Hs']].
    rewrite Hcall in He'. inversion He'. subst e'. exact Hs'. }
  exists e. split; [exact Hstatus |].
  rewrite (request_exhausted requestFn options s0 e).
  - cbn [fst]. rewrite (final_failure_enhanced _ e (status_not_nullish e status Hstatus)).
    rewrite (Hmsg _ e Hstatus). reflexivity.
  - intros j _.
    destruct (always_fails_outcome requestFn transform (validateStatus options) j s0 Hfail)
      as [e' [He' _]].
    eauto.
  - exact Hout.
Qed.

(** X18: when the server answers every call with a response whose status
    is one of 400, 401, 403, 404, 429 and 500, [getWeatherData] rejects
    with the table's message for that status, whatever [errorMessage] the
    caller gave, and the cause carries the status: over the class of
    HttpClient.js always, over the second class when the decoded body is
    not [null] (nor [undefined]). *)
Theorem server_status_is_localized :
  forall (St : Type)
         (fetch : string -> Fetch.Options -> St -> Settled Fetch.Response * St)
         (this : Service) (params : list (string * string))
         (options : CallOptions) (s0 : St) (r : Fetch.Response),
    (forall u o s, exists s', fetch u o s = (Resolved r, s')) ->
    In (Fetch.status r) mapped_statuses ->
    exists msg,
      entry (Fetch.status r) messages = Some msg /\
      (exists e,
          err_status e = Some (Fetch.status r) /\
          fst (getWeatherData (HttpClient.get fetch) this params options (mkWorld s0 []))
          = Rejected (Enhanced msg e)) /\
      (HttpClient2.read_json r <> JNull ->
       HttpClient2.read_json r <> JUndefined ->
       exists e,
         err_status e = Some (Fetch.status r) /\
         fst (getWeatherData (HttpClient2.get fetch) this params options (mkWorld s0 []))
         = Rejected (Enhanced msg e)).
Proof.
  intros St fetch this params options s0 r Hserver Hin.
  destruct (RequestSpec.mapped_status_message (Fetch.status r) Hin)
    as [msg [Hentry [_ [Hok Hmsg]]]].
  exists msg. split; [exact Hentry |]. split.
  - unfold getWeatherData. apply (request_mapped_status _ _ s0 (Fetch.status r) msg Hmsg).
    intros s. unfold HttpClient.get, HttpClient.request.
    destruct (Hserver (HttpClient.buildUrl (client this) "getWthrDataList")
                (Fetch.spread (Fetch.defaultOptions (client this))
                   (Fetch.spread (Fetch.mkOptions None None None (Some params))
                      (Fetch.mkOptions (Some "GET") None None None))) s) as [s' Hs].
    rewrite Hs. unfold Fetch.ok. rewrite Hok. simpl. eexists. split; reflexivity.
  - intros Hn Hu.
    unfold getWeatherData. apply (request_mapped_status _ _ s0 (Fetch.status r) msg Hmsg).
    intros s. unfold HttpClient2.get, HttpClient2._fetch.
    destruct (Hserver (HttpClient2._buildUrl (client this) "getWthrDataList" (Some params))
                (HttpClient2.finalOptions (client this)
                   (Fetch.spread (Fetch.mkOptions (Some "GET") None None None)
                      (Fetch.mkOptions None None None (Some params)))) s) as [s' Hs].
    simpl Fetch.params. rewrite Hs. unfold Fetch.ok. rewrite Hok. simpl.
    rewrite (WeatherSpec.get_defined _ "message" Hn Hu). simpl.
    eexists. split; [reflexivity |].
    apply (proj1 (AdapterSpec.http_error_carries _ _ _)).
Qed.

Lemma server_status_is_localized_witness :
  let this := new "http://host/" Fetch.empty in
  let fetch := Doubles.answering Doubles.json_404 in
  let options := mkCall (Own (Some 2)) Absent (Own (Some "no weather today"))
                        Absent Absent in
  exists msg,
    entry 404 messages = Some msg /\
    (exists e,
        err_status e = Some 404 /\
        fst (getWeatherData (HttpClient.get fetch) this Doubles.weather_params options
               (mkWorld tt [])) = Rejected (Enhanced msg e)) /\
    (HttpClient2.read_json Doubles.json_404 <> JNull ->
     HttpClient2.read_json Doubles.json_404 <> JUndefined ->
     exists e,
       err_status e = Some 404 /\
       fst (getWeatherData (HttpClient2.get fetch) this Doubles.weather_params options
              (mkWorld tt [])) = Rejected (Enhanced msg e)).
Proof.
  intros this fetch options.
  apply (server_status_is_localized unit fetch this Doubles.weather_params options tt
           Doubles.json_404).
  - intros u o s. exists s. reflexivity.
  - unfold mapped_statuses. simpl. auto.
Defined.

End EndToEnd.

(* ===================================================================== *)
(** ** ApiService.request: the time asked of [setTimeout]                 *)
(* ===================================================================== *)

Module DelaySpec.
Import ApiService RetryFacts.

Lemma sum_repeat (d : Z) (n : nat) :
  fold_right Z.add 0 (repeat d n) = Z.of_nat n * d.
Proof.
  induction n as [| n IH]; [reflexivity |].
  cbn [repeat fold_right]. rewrite IH. lia.
Qed.

(** X19: a run whose thunk fails on every invocation waits once per retry,
    [retryDelay] each time, before it rejects: with [N] retries the delays
    asked of [setTimeout] add up to [N * retryDelay]. *)
Theorem failing_run_waits :
  forall (St : Type) (requestFn : St -> Settled JsVal * St)
         (options : RequestOptions) (s0 : St),
    always_fails requestFn ->
    let run := request requestFn options (mkWorld s0 []) in
    let N := Z.to_nat (or_default (retries options) 1) in
    let delay := or_default (retryDelay options) 1000 in
    waits (w_trace (snd run)) = repeat delay N /\
    fold_right Z.add 0 (waits (w_trace (snd run))) = Z.of_nat N * delay.
Proof.
  intros St requestFn options s0 Hfail run N delay.
  set (transform := or_default (transformResponse options) (fun d => Returns (Resolved d))).
  destruct (always_fails_outcome requestFn transform (validateStatus options) N s0 Hfail)
    as [e [Hout _]].
  assert (waits (w_trace (snd run)) = repeat delay N) as Hw.
  { unfold run. rewrite (request_exhausted requestFn options s0 e).
    - cbn [snd w_trace]. apply waits_retry_trace.
    - intros j _.
      destruct (always_fails_outcome requestFn transform (validateStatus options) j s0
                  Hfail) as [e' [He' _]].
      eauto.
    - exact Hout. }
  rewrite Hw. split; [reflexivity | apply sum_repeat].
Qed.

Lemma failing_run_waits_witness :
  let options := mkOptions (Some 3) (Some 250) None None None in
  let run := request (Doubles.broken Doubles.teapot) options (mkWorld 0%nat []) in
  waits (w_trace (snd run)) = [250; 250; 250] /\
  fold_right Z.add 0 (waits (w_trace (snd run))) = 750.
Proof.
  intros options run.
  exact (failing_run_waits nat (Doubles.broken Doubles.teapot) options 0%nat
           (RequestSpec.broken_always_fails Doubles.teapot)).
Defined.

End DelaySpec.
